(** * tachometer-reporter-action: the pull-request comment protocol

    A shallow embedding of [src/comments.js], the module that finds,
    creates and updates the one comment a workflow run reports into, and
    the properties of it that the specification states.

    The module is asynchronous JavaScript over three collaborators: the
    GitHub client ([github.issues.*], every call of which may reject), a
    logger, and a timer.  Each [async function] becomes a computation in a
    small monad [M]: it reads and writes a [World] (the state of the
    external store and the mutable [context] object), returns a value or
    throws, and emits the list of calls it made to its collaborators. *)

From Stdlib Require Import String Ascii List NArith PArith Bool Lia DecimalString.
Import ListNotations.

Local Open Scope list_scope.
Local Open Scope string_scope.

(* ================================================================== *)
(** ** Strings as JavaScript uses them here *)

Module Js.

(** [s.startsWith(p)] *)
Fixpoint startsWith (s p : string) {struct p} : bool :=
  match p, s with
  | EmptyString, _ => true
  | String a p', String b s' => Ascii.eqb a b && startsWith s' p'
  | String _ _, EmptyString => false
  end.

(** [s.includes(sub)]: [sub] occurs somewhere in [s]. *)
Fixpoint includes (s sub : string) : bool :=
  startsWith s sub ||
  match s with
  | EmptyString => false
  | String _ s' => includes s' sub
  end.

(** White space and line terminators that [String.prototype.trim]
    strips, within ASCII: TAB, LF, VT, FF, CR and SP. *)
Definition isWhiteSpace (a : ascii) : bool :=
  match N_of_ascii a with
  | 9%N | 10%N | 11%N | 12%N | 13%N | 32%N => true
  | _ => false
  end.

Fixpoint trimStart (s : string) : string :=
  match s with
  | EmptyString => EmptyString
  | String a s' => if isWhiteSpace a then trimStart s' else s
  end.

Fixpoint trimEnd (s : string) : string :=
  match s with
  | EmptyString => EmptyString
  | String a s' =>
      match trimEnd s' with
      | EmptyString => if isWhiteSpace a then EmptyString else String a EmptyString
      | t => String a t
      end
  end.

(** [s.trim()], for text whose ends are ASCII; the footer, the one text
    the module trims, starts with line breaks and ends with a tag. *)
Definition trim (s : string) : string := trimEnd (trimStart s).

(** Template-literal interpolation of a number: its decimal digits. *)
Definition string_of_N (n : N) : string := NilEmpty.string_of_uint (N.to_uint n).
Definition string_of_pos (p : positive) : string := NilEmpty.string_of_uint (Pos.to_uint p).

(** The characters that cannot be written inside a literal here. *)
Definition dquote : string := String (ascii_of_nat 34) EmptyString.
Definition newline : string := String (ascii_of_nat 10) EmptyString.

(** A thrown [Error]: its [name] and its [message]. *)
Record Error : Type := mkError { name : string; message : string }.

(** [new RegExp(escapeRe(text))].  [escape-string-regexp] is a package
    the module requires: it escapes every character that is special in
    a pattern, so the expression it yields (built without flags, hence
    without [lastIndex] state) matches exactly the occurrences of
    [text].  The model keeps that text. *)
Record RegExp : Type := escapeRe { source : string }.

(** [re.test(s)] *)
Definition test (re : RegExp) (s : string) : bool := includes s (source re).

End Js.

(* ================================================================== *)
(** ** The data of [global.d.ts] that the module touches *)

(** [CommentData]: a comment as the REST API returns it.  The [id] is
    GitHub's database id, a positive integer. *)
Module CommentData.
Record User : Type := mkUser { type : string }.
Record t : Type := mk { id : positive; body : string; user : User }.
End CommentData.

(** [CommentContext]: the object [createCommentContext] builds and every
    function receives.  Its [id] field is the only one that is assigned
    after construction. *)
Module CommentContext.
Record t : Type := mk {
  owner : string;
  repo : string;
  issueNumber : N;
  id : option positive;
  footer : string;
  footerRe : Js.RegExp;
  matches : CommentData.t -> bool;
  delayFactor : N
}.

(** [context.id = v] *)
Definition set_id (v : option positive) (c : t) : t :=
  mk (owner c) (repo c) (issueNumber c) v (footer c) (footerRe c)
     (matches c) (delayFactor c).
End CommentContext.

(** The parts of [GitHubActionContext] and [WorkflowRunInfo] that
    [createCommentContext] reads. *)
Record GitHubActionContext : Type := {
  context_repo_owner : string;
  context_repo_repo : string;
  context_issue_number : N
}.

Record WorkflowRunInfo : Type := {
  workflowRunsHtmlUrl : string;
  workflowName : string;
  jobIndex : N
}.

(** A settled promise: fulfilled with a value or rejected with an error. *)
Inductive result (A : Type) : Type :=
| Ok (a : A)
| Throw (e : Js.Error).
Arguments Ok {A} a.
Arguments Throw {A} e.

(** [github.issues]: the four REST operations, over a store whose state
    [S] the module never sees.  Every call may change that state (other
    jobs write to the same issue) and may reject. *)
Record GitHubActionClient (S : Type) : Type := {
  issues_getComment :
    string -> string -> positive -> S -> result CommentData.t * S;
  issues_listComments :
    string -> string -> N -> S -> result (list CommentData.t) * S;
  issues_createComment :
    string -> string -> N -> string -> S -> result CommentData.t * S;
  issues_updateComment :
    string -> string -> positive -> string -> S -> result unit * S
}.
Arguments issues_getComment {S} _ _ _ _ _.
Arguments issues_listComments {S} _ _ _ _ _.
Arguments issues_createComment {S} _ _ _ _ _.
Arguments issues_updateComment {S} _ _ _ _ _.

(** The payloads of [logger.debug]: zero-argument producers, which the
    logger may or may not run.  One constructor per producer in the file. *)
Inductive DebugPayload : Type :=
| TestingMatch (re : Js.RegExp) (c : CommentData.t)
| FoundComment (c : CommentData.t)
| ErrorToString (e : Js.Error)
| UpdatedBody (body : string)
| NewBody (body : string).

(** The calls a run makes on its [logger]. *)
Module Logger.
Inductive call : Type :=
| startGroup (name : string)
| endGroup
| info (msg : string)
| warn (msg : string)
| debug (payload : DebugPayload).
End Logger.

(** The requests a run sends through [github.issues], with the
    arguments it passes. *)
Module Issues.
Inductive call : Type :=
| getComment (owner repo : string) (comment_id : positive)
| listComments (owner repo : string) (issue_number : N)
| createComment (owner repo : string) (issue_number : N) (body : string)
| updateComment (owner repo : string) (comment_id : positive) (body : string).
End Issues.

(** What a run does to its collaborators, in order. *)
Inductive Event : Type :=
| LoggerCall (c : Logger.call)
| IssuesCall (c : Issues.call)
| SetTimeout (ms : N).

(* ================================================================== *)
(** ** The monad of [async] functions *)

(** What a run can change: the store behind the client, and the
    [context] object, which every function receives by reference. *)
Record World (S : Type) : Type := mkWorld {
  store : S;
  context : CommentContext.t
}.
Arguments mkWorld {S} _ _.
Arguments store {S} _.
Arguments context {S} _.

(** The outcome of a run: how the promise settled, the world it left,
    and the calls it made. *)
Record Outcome (S A : Type) : Type := mkOutcome {
  settled : result A;
  world : World S;
  events : list Event
}.
Arguments mkOutcome {S A} _ _ _.
Arguments settled {S A} _.
Arguments world {S A} _.
Arguments events {S A} _.

Definition M (S A : Type) : Type := World S -> Outcome S A.

Definition ret {S A} (a : A) : M S A :=
  fun w => mkOutcome (Ok a) w [].

(** [throw e] *)
Definition throw {S A} (e : Js.Error) : M S A :=
  fun w => mkOutcome (Throw e) w [].

(** Sequencing: a rejection skips the rest; the world and the calls made
    so far stay. *)
Definition bind {S A B} (m : M S A) (k : A -> M S B) : M S B :=
  fun w =>
    match m w with
    | mkOutcome (Ok a) w' evs =>
        match k a w' with
        | mkOutcome r w'' evs' => mkOutcome r w'' (evs ++ evs')%list
        end
    | mkOutcome (Throw e) w' evs => mkOutcome (Throw e) w' evs
    end.

(** [try { m } catch (e) { handler e }] *)
Definition try_catch {S A} (m : M S A) (handler : Js.Error -> M S A) : M S A :=
  fun w =>
    match m w with
    | mkOutcome (Ok a) w' evs => mkOutcome (Ok a) w' evs
    | mkOutcome (Throw e) w' evs =>
        match handler e w' with
        | mkOutcome r w'' evs' => mkOutcome r w'' (evs ++ evs')%list
        end
    end.

Declare Scope async_scope.
Delimit Scope async_scope with async.
Notation "x <- m ;; k" := (bind m (fun x => k))
  (at level 61, m at next level, right associativity) : async_scope.
Notation "m ;; k" := (bind m (fun _ => k))
  (at level 61, right associativity) : async_scope.
Local Open Scope async_scope.

Definition emit {S} (e : Event) : M S unit :=
  fun w => mkOutcome (Ok tt) w [e].

Definition logger_startGroup {S} (name : string) : M S unit :=
  emit (LoggerCall (Logger.startGroup name)).
Definition logger_endGroup {S} : M S unit :=
  emit (LoggerCall Logger.endGroup).
Definition logger_info {S} (msg : string) : M S unit :=
  emit (LoggerCall (Logger.info msg)).
Definition logger_warn {S} (msg : string) : M S unit :=
  emit (LoggerCall (Logger.warn msg)).
Definition logger_debug {S} (payload : DebugPayload) : M S unit :=
  emit (LoggerCall (Logger.debug payload)).

(** Reading [context], and the assignment [context.id = v]. *)
Definition get_context {S} : M S CommentContext.t :=
  fun w => mkOutcome (Ok (context w)) w [].
Definition assign_context_id {S} (v : option positive) : M S unit :=
  fun w => mkOutcome (Ok tt) (mkWorld (store w) (CommentContext.set_id v (context w))) [].

(** [await] of one request: the store answers and moves on, and the
    request is recorded. *)
Definition request {S A} (c : Issues.call) (op : S -> result A * S) : M S A :=
  fun w =>
    let '(r, s') := op (store w) in
    mkOutcome r (mkWorld s' (context w)) [IssuesCall c].

(* ================================================================== *)
(** ** The functions of [comments.js] *)

Section Comments.

Context {S : Type}.

(** The [github] argument of every function. *)
Variable github : GitHubActionClient S.

(** What the other jobs of the run do to the store while this one waits
    [ms] milliseconds. *)
Variable elapse : N -> S -> S.

(** [sleep(ms)]: a promise that a timer resolves after [ms]. *)
Definition sleep (ms : N) : M S unit :=
  fun w => mkOutcome (Ok tt) (mkWorld (elapse ms (store w)) (context w)) [SetTimeout ms].

(** The [for (let i = comments.length; i--; )] loop of [readComment]:
    entered with [i], it stops when [i] is 0 and otherwise tests
    [comments[i - 1]].  Reading past the array yields [undefined], whose
    [c.user] throws a [TypeError]. *)
Fixpoint readComment_scan (ctx : CommentContext.t) (comments : list CommentData.t)
    (i : nat) : M S (option CommentData.t) :=
  match i with
  | O => ret None
  | Datatypes.S i' =>
      match nth_error comments i' with
      | None =>
          throw (Js.mkError "TypeError" "Cannot read properties of undefined (reading 'user')")
      | Some c =>
          logger_debug (TestingMatch (CommentContext.footerRe ctx) c) ;;
          if CommentContext.matches ctx c then
            logger_info ("Found comment! (id: " ++ Js.string_of_pos (CommentData.id c) ++ ")") ;;
            logger_debug (FoundComment c) ;;
            ret (Some c)
          else readComment_scan ctx comments i'
      end
  end.

(** [readComment(github, context, logger)].  The test [if (context.id)]
    is on a field that is [null] or a positive number, so it holds
    exactly when the field is set.  The local [comment] is assigned at
    most once, by the last statement the [try] block runs, so the block
    is modelled as returning it and the handler as returning
    [undefined]. *)
Definition readComment : M S (option CommentData.t) :=
  try_catch
    (ctx <- get_context ;;
     match CommentContext.id ctx with
     | Some id =>
         logger_info ("Reading comment " ++ Js.string_of_pos id ++ "...") ;;
         comment <- request
           (Issues.getComment (CommentContext.owner ctx) (CommentContext.repo ctx) id)
           (issues_getComment github (CommentContext.owner ctx) (CommentContext.repo ctx) id) ;;
         ret (Some comment)
     | None =>
         logger_info "Trying to find matching comment..." ;;
         comments <- request
           (Issues.listComments (CommentContext.owner ctx) (CommentContext.repo ctx)
              (CommentContext.issueNumber ctx))
           (issues_listComments github (CommentContext.owner ctx) (CommentContext.repo ctx)
              (CommentContext.issueNumber ctx)) ;;
         readComment_scan ctx comments (length comments)
     end)
    (fun e =>
       logger_warn ("Error trying to read comments: " ++ Js.message e) ;;
       logger_debug (ErrorToString e) ;;
       ret None).

(** [updateComment(github, context, body, logger)] *)
Definition updateComment (body : string) : M S unit :=
  ctx <- get_context ;;
  match CommentContext.id ctx with
  | None =>
      throw (Js.mkError "Error"
               ("Cannot update comment if " ++ Js.dquote ++ "context.id" ++ Js.dquote ++ " is null"))
  | Some id =>
      logger_info ("Updating comment body (id: " ++ Js.string_of_pos id ++ ")...") ;;
      request
        (Issues.updateComment (CommentContext.owner ctx) (CommentContext.repo ctx) id body)
        (issues_updateComment github (CommentContext.owner ctx) (CommentContext.repo ctx) id body) ;;
      logger_debug (UpdatedBody body)
  end.

(** [createComment(github, context, body, logger)] *)
Definition createComment (body : string) : M S CommentData.t :=
  logger_info "Creating new comment..." ;;
  logger_debug (NewBody body) ;;
  ctx <- get_context ;;
  request
    (Issues.createComment (CommentContext.owner ctx) (CommentContext.repo ctx)
       (CommentContext.issueNumber ctx) body)
    (issues_createComment github (CommentContext.owner ctx) (CommentContext.repo ctx)
       (CommentContext.issueNumber ctx) body).

(** [initiateCommentLock(github, context, getInitialBody, logger)].  The
    delay is the delay factor times 100.  The source multiplies
    doubles: the result is this product as long as it is below 2^53,
    and [TIMEOUT_MAX] is far below. *)
Definition initiateCommentLock (getInitialBody : option CommentData.t -> string)
    : M S CommentData.t :=
  logger_startGroup "Initiating comment lock..." ;;
  ctx <- get_context ;;
  let delay := (CommentContext.delayFactor ctx * 100)%N in
  comment <- readComment ;;
  comment <-
    match comment with
    | None =>
        logger_info ("Comment not found. Waiting " ++ Js.string_of_N delay
                     ++ "ms before trying again...") ;;
        sleep delay ;;
        comment <- readComment ;;
        match comment with
        | None =>
            logger_info "After delay, comment not found. Creating comment..." ;;
            createComment (getInitialBody None)
        | Some c =>
            logger_info "Comment found. Doing nothing." ;;
            ret c
        end
    | Some c =>
        logger_info "Comment found. Doing nothing." ;;
        ret c
    end ;;
  logger_endGroup ;;
  assign_context_id (Some (CommentData.id comment)) ;;
  ret comment.

(** [acquireCommentLock(github, context, getInitialBody, logger)]: the
    lock is not written yet, the function only initiates it. *)
Definition acquireCommentLock (getInitialBody : option CommentData.t -> string)
    : M S CommentData.t :=
  comment <- initiateCommentLock getInitialBody ;;
  ret comment.

(** The world in which the second [readComment] of
    [initiateCommentLock] runs: the one the first left, after the wait. *)
Definition after_wait (w : World S) : World S :=
  let w1 := world (readComment w) in
  mkWorld (elapse (CommentContext.delayFactor (context w) * 100)%N (store w1)) (context w1).

(** [postOrUpdateComment(github, context, getCommentBody, logger)].  The
    local [comment] holds the record or [null]; it is threaded through
    the two [if] statements. *)
Definition postOrUpdateComment (getCommentBody : option CommentData.t -> string)
    : M S unit :=
  logger_info "Updating PR comment:" ;;
  acquired <- acquireCommentLock getCommentBody ;;
  let comment := Some acquired in
  comment <-
    match comment with
    | Some c =>
        assign_context_id (Some (CommentData.id c)) ;;
        try_catch
          (ctx <- get_context ;;
           let updatedBody := getCommentBody (Some c) in
           let updatedBody :=
             if negb (Js.includes updatedBody (CommentContext.footer ctx))
             then updatedBody ++ CommentContext.footer ctx
             else updatedBody in
           updateComment updatedBody ;;
           ret (Some c))
          (fun e =>
             logger_info ("Error updating comment: " ++ Js.message e) ;;
             logger_debug (ErrorToString e) ;;
             ret None)
    | None => ret None
    end ;;
  match comment with
  | None =>
      try_catch
        (ctx <- get_context ;;
         createComment (getCommentBody None ++ CommentContext.footer ctx) ;;
         ret tt)
        (fun e =>
           logger_info ("Error creating comment: " ++ Js.message e) ;;
           logger_debug (ErrorToString e) ;;
           ret tt)
  | Some _ => ret tt
  end.

(** What a caller can do with a context once it has one: call again
    the two functions the module exports that take it.  A caller that
    goes on after a rejected call has caught the rejection. *)
Inductive Invocation : Type :=
| InitiateCommentLock (getInitialBody : option CommentData.t -> string)
| PostOrUpdateComment (getCommentBody : option CommentData.t -> string).

Definition invoke (call : Invocation) : M S unit :=
  try_catch
    match call with
    | InitiateCommentLock getInitialBody => initiateCommentLock getInitialBody ;; ret tt
    | PostOrUpdateComment getCommentBody => postOrUpdateComment getCommentBody
    end
    (fun _ => ret tt).

Fixpoint invocations (calls : list Invocation) : M S unit :=
  match calls with
  | [] => ret tt
  | call :: calls' => invoke call ;; invocations calls'
  end.

(** The store request a [readComment] in world [w] makes is rejected
    with [e]. *)
Definition read_rejected (w : World S) (e : Js.Error) : Prop :=
  match CommentContext.id (context w) with
  | Some id =>
      fst (issues_getComment github (CommentContext.owner (context w))
             (CommentContext.repo (context w)) id (store w)) = Throw e
  | None =>
      fst (issues_listComments github (CommentContext.owner (context w))
             (CommentContext.repo (context w)) (CommentContext.issueNumber (context w))
             (store w)) = Throw e
  end.

End Comments.

(** [createCommentContext(context, workflowInfo)] *)
Definition footer_of (workflowInfo : WorkflowRunInfo) : string :=
  Js.newline ++ Js.newline
  ++ "<sub><a href=" ++ Js.dquote
  ++ "https://github.com/andrewiggins/tachometer-reporter-action"
  ++ Js.dquote ++ " target=" ++ Js.dquote ++ "_blank" ++ Js.dquote
  ++ ">tachometer-reporter-action</a> for <a href=" ++ Js.dquote
  ++ workflowRunsHtmlUrl workflowInfo
  ++ Js.dquote ++ " target=" ++ Js.dquote ++ "_blank" ++ Js.dquote ++ ">"
  ++ workflowName workflowInfo ++ "</a></sub>".

Definition createCommentContext (context : GitHubActionContext)
    (workflowInfo : WorkflowRunInfo) : CommentContext.t :=
  let footer := footer_of workflowInfo in
  let footerRe := Js.escapeRe (Js.trim footer) in
  {| CommentContext.owner := context_repo_owner context;
     CommentContext.repo := context_repo_repo context;
     CommentContext.issueNumber := context_issue_number context;
     CommentContext.id := None;
     CommentContext.footer := footer;
     CommentContext.footerRe := footerRe;
     CommentContext.matches := fun c =>
       String.eqb (CommentData.type (CommentData.user c)) "Bot"
       && Js.test footerRe (CommentData.body c);
     CommentContext.delayFactor := jobIndex workflowInfo |}.

(* ================================================================== *)
(** ** Reading a run's events *)

(** The run's calls without the logging: requests and timers. *)
Definition actions (evs : list Event) : list Event :=
  filter (fun e => match e with LoggerCall _ => false | _ => true end) evs.

Definition logger_calls (evs : list Event) : list Logger.call :=
  flat_map (fun e => match e with LoggerCall c => [c] | _ => [] end) evs.

Definition issues_calls (evs : list Event) : list Issues.call :=
  flat_map (fun e => match e with IssuesCall c => [c] | _ => [] end) evs.

(** The reads among the requests: one per attempt to locate the comment. *)
Definition is_read (c : Issues.call) : bool :=
  match c with
  | Issues.getComment _ _ _ | Issues.listComments _ _ _ => true
  | _ => false
  end.

Definition locates (evs : list Event) : list Issues.call :=
  filter is_read (issues_calls evs).

(** The bodies of the comments the run asked to create, and the
    (id, body) pairs it asked to write. *)
Definition created_bodies (evs : list Event) : list string :=
  flat_map (fun c => match c with Issues.createComment _ _ _ b => [b] | _ => [] end)
           (issues_calls evs).

Definition updated_bodies (evs : list Event) : list (positive * string) :=
  flat_map (fun c => match c with Issues.updateComment _ _ i b => [(i, b)] | _ => [] end)
           (issues_calls evs).

(** The timers the run armed: the delays it passed to [setTimeout]. *)
Definition timeouts (evs : list Event) : list N :=
  flat_map (fun e => match e with SetTimeout ms => [ms] | _ => [] end) evs.

(** The largest delay a timer takes as it is.  Up to it the product
    [delayFactor * 100], which the source computes on doubles, is the
    exact product, and Node arms the timer with the delay it is given
    (a larger one it replaces by 1 ms). *)
Definition TIMEOUT_MAX : N := 2147483647.

(** How often [sub] occurs in [s], overlapping occurrences included. *)
Fixpoint occurrences (sub s : string) : nat :=
  (if Js.startsWith s sub then 1 else 0) +
  match s with
  | EmptyString => 0
  | String _ s' => occurrences sub s'
  end.

(** The search the specification words: the listing is ordered oldest
    first, and the most recent record that matches is the one to take. *)
Definition most_recent_match (matches : CommentData.t -> bool)
    (listing : list CommentData.t) : option CommentData.t :=
  find matches (rev listing).

(** The comments a run tested against the match predicate, in the
    order it tested them. *)
Definition tested (evs : list Event) : list CommentData.t :=
  flat_map (fun c => match c with Logger.debug (TestingMatch _ c) => [c] | _ => [] end)
           (logger_calls evs).

(** The elements of [l] up to and including the first that satisfies [f]. *)
Fixpoint take_through {A} (f : A -> bool) (l : list A) : list A :=
  match l with
  | [] => []
  | x :: l' => if f x then [x] else x :: take_through f l'
  end.

(** The body [postOrUpdateComment] writes over the comment [c] it
    holds: the computed body, with the footer appended when [includes]
    does not find it. *)
Definition updatedBody (ctx : CommentContext.t)
    (getCommentBody : option CommentData.t -> string) (c : CommentData.t) : string :=
  if Js.includes (getCommentBody (Some c)) (CommentContext.footer ctx)
  then getCommentBody (Some c)
  else getCommentBody (Some c) ++ CommentContext.footer ctx.

(* ================================================================== *)
(** ** A scripted store, for running the functions on concrete inputs *)

(** The store answers from a script, one reply per request, whatever the
    request; a reply of the wrong shape, or none left, rejects. *)
Module Script.

Inductive reply : Type :=
| comment (c : CommentData.t)
| listing (cs : list CommentData.t)
| done
| fails (e : Js.Error).

Definition exhausted : Js.Error := Js.mkError "HttpError" "Not Found".

Definition next {A} (pick : reply -> result A) (s : list reply) : result A * list reply :=
  match s with
  | [] => (Throw exhausted, [])
  | r :: s' => (pick r, s')
  end.

Definition as_comment (r : reply) : result CommentData.t :=
  match r with comment c => Ok c | fails e => Throw e | _ => Throw exhausted end.
Definition as_listing (r : reply) : result (list CommentData.t) :=
  match r with listing cs => Ok cs | fails e => Throw e | _ => Throw exhausted end.
Definition as_done (r : reply) : result unit :=
  match r with done => Ok tt | fails e => Throw e | _ => Throw exhausted end.

Definition github : GitHubActionClient (list reply) :=
  {| issues_getComment := fun _ _ _ => next as_comment;
     issues_listComments := fun _ _ _ => next as_listing;
     issues_createComment := fun _ _ _ _ => next as_comment;
     issues_updateComment := fun _ _ _ _ => next as_done |}.

Definition elapse (ms : N) (s : list reply) : list reply := s.

End Script.

(** ** Concrete runs *)

Module Scenario.

Definition workflowInfo : WorkflowRunInfo :=
  {| workflowRunsHtmlUrl := "https://github.com/o/r/actions/runs/1";
     workflowName := "Benchmarks";
     jobIndex := 3 |}.

Definition actionContext : GitHubActionContext :=
  {| context_repo_owner := "o"; context_repo_repo := "r"; context_issue_number := 5 |}.

(** The context both entry points of [index.js] pass to
    [postOrUpdateComment]: freshly built, [id] still [null]. *)
Definition ctx : CommentContext.t := createCommentContext actionContext workflowInfo.

Definition bot (id : positive) (body : string) : CommentData.t :=
  CommentData.mk id body (CommentData.mkUser "Bot").

Definition human (id : positive) (body : string) : CommentData.t :=
  CommentData.mk id body (CommentData.mkUser "User").

Definition serverError : Js.Error := Js.mkError "HttpError" "Server Error".

Definition start (script : list Script.reply) (c : CommentContext.t)
    : World (list Script.reply) :=
  mkWorld script c.

(** A body producer that ignores the comment it is given. *)
Definition report (_ : option CommentData.t) : string := "report".

(** A body producer whose output already ends with the footer. *)
Definition report_with_footer (_ : option CommentData.t) : string :=
  "report" ++ CommentContext.footer ctx.

(** No comment on the issue, before and after the wait, and the store
    rejects the create request. *)
Definition create_rejected : list Script.reply :=
  [Script.listing []; Script.listing []; Script.fails serverError].

(** The comment is found, the store rejects its update and accepts the
    create request that follows. *)
Definition update_rejected : list Script.reply :=
  [Script.listing [bot 7 ("old" ++ CommentContext.footer ctx)];
   Script.fails serverError;
   Script.comment (bot 9 "new")].

(** A listing, oldest first: a human quoting the footer, two comments
    of the action, and a bot comment that is not the action's. *)
Definition listing : list CommentData.t :=
  [human 6 ("quoted" ++ CommentContext.footer ctx);
   bot 7 ("first" ++ CommentContext.footer ctx);
   bot 8 ("second" ++ CommentContext.footer ctx);
   bot 9 "coverage report"].

(** No comment on the issue, and the store accepts the create request. *)
Definition create_accepted : list Script.reply :=
  [Script.listing []; Script.listing []; Script.comment (bot 7 "report")].

End Scenario.

(* ================================================================== *)
(** ** Further readings of a run *)

(** The request a [readComment] sends, given the context it runs with. *)
Definition read_request (ctx : CommentContext.t) : Issues.call :=
  match CommentContext.id ctx with
  | Some id =>
      Issues.getComment (CommentContext.owner ctx) (CommentContext.repo ctx) id
  | None =>
      Issues.listComments (CommentContext.owner ctx) (CommentContext.repo ctx)
        (CommentContext.issueNumber ctx)
  end.

(** The request names the repository of the context and, when it names
    an issue, the issue of the context. *)
Definition addressed_to (ctx : CommentContext.t) (c : Issues.call) : Prop :=
  match c with
  | Issues.getComment owner repo _ | Issues.updateComment owner repo _ _ =>
      owner = CommentContext.owner ctx /\ repo = CommentContext.repo ctx
  | Issues.listComments owner repo issue_number
  | Issues.createComment owner repo issue_number _ =>
      owner = CommentContext.owner ctx /\ repo = CommentContext.repo ctx
      /\ issue_number = CommentContext.issueNumber ctx
  end.


(* ================================================================== *)
(** ** [index.js]: the report *)

(** More of JavaScript's strings and arrays. *)
Module JsArray.

(** [array.join(sep)] on strings. *)
Fixpoint join (sep : string) (l : list string) : string :=
  match l with
  | [] => ""
  | [x] => x
  | x :: l' => x ++ sep ++ join sep l'
  end.

(** [new Set(array)], as the list of its elements in insertion order:
    [seen] holds what was added so far, and adding a string that is
    already there changes nothing. *)
Fixpoint Set_of (seen array : list string) : list string :=
  match array with
  | [] => seen
  | x :: array' =>
      Set_of (if existsb (String.eqb x) seen then seen else seen ++ [x]) array'
  end.

(** [Array.from(new Set(array))] *)
Definition unique (array : list string) : list string := Set_of [] array.

(** [s.replace(/c/g, d)] for single characters [c] and [d]. *)
Fixpoint replace_char (c d : ascii) (s : string) : string :=
  match s with
  | EmptyString => EmptyString
  | String a s' => String (if Ascii.eqb a c then d else a) (replace_char c d s')
  end.

(** [s.replace(/c*$/, "")] for a character [c]: the first match of the
    pattern starts where the last run of [c] does, so the whole run
    goes. *)
Fixpoint strip_trailing (c : ascii) (s : string) : string :=
  match s with
  | EmptyString => EmptyString
  | String a s' =>
      match strip_trailing c s' with
      | EmptyString => if Ascii.eqb a c then EmptyString else String a EmptyString
      | t => String a t
      end
  end.

(** [s.endsWith(c)] for a character [c]. *)
Fixpoint endsWith_char (s : string) (c : ascii) : bool :=
  match s with
  | EmptyString => false
  | String a EmptyString => Ascii.eqb a c
  | String _ s' => endsWith_char s' c
  end.

End JsArray.

(** A property of an options object as a caller may pass it: missing,
    or present with [undefined], [null] or a value. *)
Inductive Property (A : Type) : Type :=
| Missing
| Undefined
| Null
| Value (a : A).
Arguments Missing {A}.
Arguments Undefined {A}.
Arguments Null {A}.
Arguments Value {A} a.

(** [if (p)] for a string property: a string that is not empty. *)
Definition truthy (p : Property string) : option string :=
  match p with
  | Value s => if String.eqb s "" then None else Some s
  | _ => None
  end.

(** [{ ...defaults, ...given }] for one property: what is given wins
    whenever the property is there, whatever it holds. *)
Definition spread {A} (default given : Property A) : Property A :=
  match given with
  | Missing => default
  | _ => given
  end.

(** [Inputs]: the options of the action. *)
Module Inputs.
Record t : Type := mk {
  path : Property string;
  reportId : Property string;
  prBenchName : Property string;
  baseBenchName : Property string;
  keepOldResults : Property bool;
  defaultOpen : Property bool
}.
End Inputs.

Definition defaultInputs : Inputs.t :=
  {| Inputs.path := Missing;
     Inputs.reportId := Null;
     Inputs.prBenchName := Null;
     Inputs.baseBenchName := Null;
     Inputs.keepOldResults := Value false;
     Inputs.defaultOpen := Value false |}.

(** [{ ...defaultInputs, ...inputs }] *)
Definition with_defaults (inputs : Inputs.t) : Inputs.t :=
  {| Inputs.path := spread (Inputs.path defaultInputs) (Inputs.path inputs);
     Inputs.reportId := spread (Inputs.reportId defaultInputs) (Inputs.reportId inputs);
     Inputs.prBenchName :=
       spread (Inputs.prBenchName defaultInputs) (Inputs.prBenchName inputs);
     Inputs.baseBenchName :=
       spread (Inputs.baseBenchName defaultInputs) (Inputs.baseBenchName inputs);
     Inputs.keepOldResults :=
       spread (Inputs.keepOldResults defaultInputs) (Inputs.keepOldResults inputs);
     Inputs.defaultOpen :=
       spread (Inputs.defaultOpen defaultInputs) (Inputs.defaultOpen inputs) |}.

(** [BenchmarkResult], as far as [index.js] reads it. *)
Module Browser.
Record t : Type := mk { name : string; headless : bool }.
End Browser.

Module BenchmarkResult.
Record t : Type := mk { name : string; version : string; browser : Browser.t }.
End BenchmarkResult.

(** [TachResults]: what [JSON.parse] made of the results file; its
    [benchmarks] may be missing. *)
Record TachResults : Type := { benchmarks : option (list BenchmarkResult.t) }.

Section Index.

Context {S : Type}.

(** What [index.js] requires from other modules and packages. *)

(** [crypto.createHash("sha1").update(s).digest("base64")] *)
Variable sha1_base64 : string -> string.

(** The elements [getCommentBody.js] renders, [CommitInfo], and
    [element.toString()]. *)
Variable Html : Type.
Variable CommitInfo : Type.
Variable Status : WorkflowRunInfo -> bool -> Html.
Variable ResultsEntry :
  string -> option (list BenchmarkResult.t) -> WorkflowRunInfo -> CommitInfo -> Html.
Variable Summary :
  string -> string -> option (list BenchmarkResult.t) -> Property string ->
  Property string -> WorkflowRunInfo -> bool -> Html.
Variable toString : Html -> string.

(** [Report] and [SerializedReport] *)
Record Report : Type := {
  report_id : string;
  report_title : string;
  report_prBenchName : Property string;
  report_baseBenchName : Property string;
  report_workflowRun : WorkflowRunInfo;
  report_isRunning : bool;
  report_status : option Html;
  report_body : Html;
  report_summary : Html
}.

Record SerializedReport : Type := {
  serialized_id : string;
  serialized_title : string;
  serialized_prBenchName : Property string;
  serialized_baseBenchName : Property string;
  serialized_workflowRun : WorkflowRunInfo;
  serialized_isRunning : bool;
  serialized_status : option string;
  serialized_body : string;
  serialized_summary : string
}.

(** [getCommentBody(inputs, report, commentBody, logger)] of
    [getCommentBody.js] *)
Variable getCommentBody : Inputs.t -> Report -> option string -> string.

(** [Promise.all([getWorkflowRunInfo(context, github, logger),
    getCommit(context, github)])] of [utils/github.js], and the same
    with [readFile(path, "utf8")] and [JSON.parse] before them: whatever
    they do, they yield their values or reject. *)
Variable getRunAndCommit : GitHubActionContext -> M S (WorkflowRunInfo * CommitInfo).
Variable readResultsRunAndCommit :
  Property string -> GitHubActionContext ->
  M S (option TachResults * WorkflowRunInfo * CommitInfo).

Variable github : GitHubActionClient S.
Variable elapse : N -> S -> S.

(** [getReportId(benchmarks)] *)
Definition getBrowserKey (b : BenchmarkResult.t) : string :=
  Browser.name (BenchmarkResult.browser b)
  ++ (if Browser.headless (BenchmarkResult.browser b) then "-headless" else "").

Definition getReportId (benchmarks : list BenchmarkResult.t) : string :=
  let benchKeys :=
    map (fun b => BenchmarkResult.name b ++ "," ++ BenchmarkResult.version b ++ ","
                  ++ getBrowserKey b)
        benchmarks in
  JsArray.strip_trailing "="
    (JsArray.replace_char "/" "_"
       (JsArray.replace_char "+" "-"
          (sha1_base64 (JsArray.join "::" benchKeys)))).

(** [buildReport(commitInfo, workflowRun, inputs, tachResults,
    isRunning)]; [tachResults] may be [null]. *)
Definition buildReport (commitInfo : CommitInfo) (workflowRun : WorkflowRunInfo)
    (inputs : Inputs.t) (tachResults : option TachResults) (isRunning : bool)
    : result Report :=
  let benchmarks :=
    match tachResults with
    | Some results => benchmarks results
    | None => None
    end in
  let build (reportId title : string) : Report :=
    {| report_id := reportId;
       report_title := title;
       report_prBenchName := Inputs.prBenchName inputs;
       report_baseBenchName := Inputs.baseBenchName inputs;
       report_workflowRun := workflowRun;
       report_isRunning := isRunning;
       report_status := if isRunning then Some (Status workflowRun true) else None;
       report_body := ResultsEntry reportId benchmarks workflowRun commitInfo;
       report_summary :=
         Summary reportId title benchmarks (Inputs.prBenchName inputs)
           (Inputs.baseBenchName inputs) workflowRun isRunning |} in
  match truthy (Inputs.reportId inputs) with
  | Some reportId => Ok (build reportId reportId)
  | None =>
      match benchmarks with
      | Some benchmarks =>
          Ok (build (getReportId benchmarks)
                (JsArray.join ", " (JsArray.unique (map BenchmarkResult.name benchmarks))))
      | None =>
          Throw (Js.mkError "Error"
                   "Could not determine ID for report. 'report-id' option was not provided and there are no benchmark results")
      end
  end.

(** [{ ...report, status: report.status?.toString(), ... }] *)
Definition serialize (report : Report) : SerializedReport :=
  {| serialized_id := report_id report;
     serialized_title := report_title report;
     serialized_prBenchName := report_prBenchName report;
     serialized_baseBenchName := report_baseBenchName report;
     serialized_workflowRun := report_workflowRun report;
     serialized_isRunning := report_isRunning report;
     serialized_status := option_map toString (report_status report);
     serialized_body := toString (report_body report);
     serialized_summary := toString (report_summary report) |}.

(** A synchronous result inside an [async] function: a throw rejects. *)
Definition settle {A} (r : result A) : M S A :=
  fun w => mkOutcome r w [].

(** The object [createCommentContext] returns is new: from the call on
    it is the context the run works with. *)
Definition with_new_context (c : CommentContext.t) : M S unit :=
  fun w => mkOutcome (Ok tt) (mkWorld (store w) c) [].

(** The two entry points post with the same arguments. *)
Definition post (context : GitHubActionContext) (workflowRun : WorkflowRunInfo)
    (inputs : Inputs.t) (report : Report) : M S unit :=
  with_new_context (createCommentContext context workflowRun) ;;
  postOrUpdateComment github elapse
    (fun comment => getCommentBody inputs report (option_map CommentData.body comment)).

(** [reportTachRunning(github, context, inputs, logger)] *)
Definition reportTachRunning (context : GitHubActionContext) (inputs : Inputs.t)
    : M S SerializedReport :=
  fetched <- getRunAndCommit context ;;
  let '(workflowRun, commitInfo) := fetched in
  report <- settle (buildReport commitInfo workflowRun inputs None true) ;;
  post context workflowRun inputs report ;;
  ret (serialize report).

(** [reportTachResults(github, context, inputs, logger)] *)
Definition reportTachResults (context : GitHubActionContext) (inputs : Inputs.t)
    : M S SerializedReport :=
  let inputs := with_defaults inputs in
  fetched <- readResultsRunAndCommit (Inputs.path inputs) context ;;
  let '(tachResults, workflowRun, commitInfo) := fetched in
  report <- settle (buildReport commitInfo workflowRun inputs tachResults false) ;;
  post context workflowRun inputs report ;;
  ret (serialize report).

End Index.

(* ================================================================== *)
(** ** [tests/utils.js]: the element ids the tests look for *)

(** [id ? id : ""], for an [id] that is a string or [undefined]. *)
Definition id_or_empty (id : option string) : string :=
  match id with
  | Some s => if String.eqb s "" then "" else s
  | None => ""
  end.

Definition getBenchmarkSectionId (id : option string) : string :=
  "tachometer-reporter-action--results-" ++ id_or_empty id.

Definition getSummaryId (id : option string) : string :=
  "tachometer-reporter-action--summary-" ++ id_or_empty id.

Definition getSummaryListId : string := "tachometer-reporter-action--summaries".

Definition getResultsContainerId : string := "tachometer-reporter-action--results".

(* ================================================================== *)
(** ** Concrete runs of the entry points *)

Module IndexScenario.

(** Stand-ins for what [index.js] requires: a digest with every
    character [getReportId] rewrites, and elements that are their own
    text. *)
Definition digest (_ : string) : string := "Kq+8/xY+/w==".

Definition Status (_ : WorkflowRunInfo) (_ : bool) : string := "status".

Definition ResultsEntry (reportId : string) (_ : option (list BenchmarkResult.t))
    (_ : WorkflowRunInfo) (_ : unit) : string :=
  "results of " ++ reportId.

Definition Summary (_ title : string) (_ : option (list BenchmarkResult.t))
    (_ _ : Property string) (_ : WorkflowRunInfo) (_ : bool) : string :=
  "summary of " ++ title.

Definition toString (element : string) : string := element.

Definition getCommentBody (_ : Inputs.t) (report : Report string) (_ : option string)
    : string :=
  report_body string report.

Definition getRunAndCommit (_ : GitHubActionContext)
    : M (list Script.reply) (WorkflowRunInfo * unit) :=
  ret (Scenario.workflowInfo, tt).

Definition chrome : Browser.t := Browser.mk "chrome" true.

Definition results : list BenchmarkResult.t :=
  [BenchmarkResult.mk "render" "base" chrome;
   BenchmarkResult.mk "update" "base" chrome;
   BenchmarkResult.mk "render" "local" chrome].

Definition readResultsRunAndCommit (found : option TachResults) (_ : Property string)
    (_ : GitHubActionContext)
    : M (list Script.reply) (option TachResults * WorkflowRunInfo * unit) :=
  ret (found, Scenario.workflowInfo, tt).

(** Inputs with only the path of the results file, and inputs that
    name the report. *)
Definition only_path : Inputs.t :=
  Inputs.mk (Value "results.json") Missing Missing Missing Missing Missing.

Definition named : Inputs.t :=
  Inputs.mk (Value "results.json") (Value "my-report") Missing Missing Missing Missing.

End IndexScenario.

(* ================================================================== *)
(** ** A store that keeps what it is given *)

(** The comments of one issue, oldest first, behind a client that
    never fails a well-formed request: a create appends a comment of a
    "Bot" with the next id, an update replaces the body of the comment
    with that id, a listing returns them all, and no other job writes. *)
Module MemoryStore.

Definition notFound : Js.Error := Js.mkError "HttpError" "Not Found".

Definition has_id (id : positive) (c : CommentData.t) : bool :=
  Pos.eqb (CommentData.id c) id.

Definition github : GitHubActionClient (list CommentData.t) :=
  {| issues_getComment := fun _ _ id s =>
       match find (has_id id) s with
       | Some c => (Ok c, s)
       | None => (Throw notFound, s)
       end;
     issues_listComments := fun _ _ _ s => (Ok s, s);
     issues_createComment := fun _ _ _ body s =>
       let c := CommentData.mk (Pos.of_succ_nat (length s)) body (CommentData.mkUser "Bot") in
       (Ok c, s ++ [c])%list;
     issues_updateComment := fun _ _ id body s =>
       match find (has_id id) s with
       | Some _ =>
           (Ok tt,
            map (fun c => if has_id id c
                          then CommentData.mk id body (CommentData.user c)
                          else c) s)
       | None => (Throw notFound, s)
       end |}.

Definition elapse (ms : N) (s : list CommentData.t) : list CommentData.t := s.

End MemoryStore.

(* ================================================================== *)
(** ** A sibling job that writes during the wait *)

Module Race.

(** The job with index 0 in the run of [Scenario]. *)
Definition first_job : WorkflowRunInfo :=
  {| workflowRunsHtmlUrl := workflowRunsHtmlUrl Scenario.workflowInfo;
     workflowName := workflowName Scenario.workflowInfo;
     jobIndex := 0 |}.

Definition ctx : CommentContext.t := createCommentContext Scenario.actionContext first_job.

Definition sibling : CommentData.t :=
  Scenario.bot 1 ("sibling" ++ CommentContext.footer ctx).

(** While this job awaits its timer, however short, another job of the
    run creates the comment. *)
Definition elapse (ms : N) (s : list CommentData.t) : list CommentData.t :=
  (s ++ [sibling])%list.

End Race.

(** [names] holds the strings of [array], each once, in the order in
    which they first appear: the first string of the array first, then
    the same of what is left of the array without it. *)
Inductive FirstAppearances : list string -> list string -> Prop :=
| first_appearances_nil : FirstAppearances [] []
| first_appearances_cons (x : string) (array names : list string) :
    FirstAppearances (filter (fun y => negb (String.eqb y x)) array) names ->
    FirstAppearances (x :: array) (x :: names).

(* ================================================================== *)
(** ** Facts about the string functions *)

Lemma append_nil_r (s : string) : s ++ "" = s.
Proof. induction s as [|a s IH]; simpl; [reflexivity | now rewrite IH]. Qed.

Lemma append_assoc (s t u : string) : (s ++ t) ++ u = s ++ (t ++ u).
Proof. induction s as [|a s IH]; simpl; [reflexivity | now rewrite IH]. Qed.

Lemma startsWith_spec (s p : string) :
  Js.startsWith s p = true <-> exists t, s = p ++ t.
Proof.
  revert s; induction p as [|a p IH]; intros s; simpl.
  - split; [intros _; now exists s | reflexivity].
  - destruct s as [|b s].
    + split; [discriminate | intros [t Ht]; discriminate].
    + rewrite andb_true_iff, Ascii.eqb_eq, IH. split.
      * intros [-> [t ->]]. now exists t.
      * intros [t Ht]. injection Ht as -> ->. split; [reflexivity | now exists t].
Qed.

Lemma includes_spec (s sub : string) :
  Js.includes s sub = true <-> exists a b, s = a ++ sub ++ b.
Proof.
  induction s as [|c s IH].
  - simpl. rewrite orb_false_r, startsWith_spec. split.
    + intros [t Ht]. now exists "", t.
    + intros [a [b Hab]]. destruct a; [now exists b | discriminate].
  - cbn [Js.includes]. rewrite orb_true_iff, startsWith_spec, IH. split.
    + intros [[t Ht] | [a [b Hab]]].
      * now exists "", t.
      * exists (String c a), b. simpl. now rewrite Hab.
    + intros [a [b Hab]]. destruct a as [|c' a].
      * left. now exists b.
      * right. simpl in Hab. injection Hab as _ ->. now exists a, b.
Qed.

Lemma includes_append_r (s sub : string) : Js.includes (s ++ sub) sub = true.
Proof. apply includes_spec. exists s, "". now rewrite append_nil_r. Qed.

Lemma includes_trans (s t u : string) :
  Js.includes s t = true -> Js.includes t u = true -> Js.includes s u = true.
Proof.
  rewrite !includes_spec. intros [a [b ->]] [a' [b' ->]].
  exists (a ++ a'), (b' ++ b). now rewrite !append_assoc.
Qed.

Lemma trimStart_suffix (s : string) : exists a, s = a ++ Js.trimStart s.
Proof.
  induction s as [|c s [a IH]]; simpl.
  - now exists "".
  - destruct (Js.isWhiteSpace c).
    + exists (String c a). simpl. now rewrite <- IH.
    + now exists "".
Qed.

Lemma trimEnd_prefix (s : string) : exists b, s = Js.trimEnd s ++ b.
Proof.
  induction s as [|c s [b IH]]; simpl.
  - now exists "".
  - destruct (Js.trimEnd s) as [|d t] eqn:E.
    + destruct (Js.isWhiteSpace c).
      * now exists (String c s).
      * exists s. reflexivity.
    + exists b. simpl. now rewrite IH at 1.
Qed.

(** Trimming only removes from the ends: the trimmed text still occurs. *)
Lemma includes_trim (s : string) : Js.includes s (Js.trim s) = true.
Proof.
  apply includes_spec. unfold Js.trim.
  destruct (trimStart_suffix s) as [a Ha].
  destruct (trimEnd_prefix (Js.trimStart s)) as [b Hb].
  exists a, b. now rewrite <- Hb.
Qed.

Lemma trimEnd_append (s t : string) :
  Js.trimEnd t <> "" -> Js.trimEnd (s ++ t) = s ++ Js.trimEnd t.
Proof.
  intros Ht. induction s as [|c s IH]; simpl; [reflexivity|].
  rewrite IH. destruct (s ++ Js.trimEnd t) as [|d u] eqn:E; [|reflexivity].
  destruct s; simpl in E; [contradiction | discriminate].
Qed.

(** The pattern of [footerRe]: the footer without its two leading line
    breaks, whatever the workflow's URL and name are. *)
Lemma footer_of_trim (workflowInfo : WorkflowRunInfo) :
  footer_of workflowInfo = Js.newline ++ Js.newline ++ Js.trim (footer_of workflowInfo).
Proof.
  unfold footer_of, Js.trim.
  set (rest := Js.dquote ++ _).
  change (Js.trimStart (Js.newline ++ Js.newline ++ "<sub><a href=" ++ rest))
    with ("<sub><a href=" ++ rest).
  do 2 f_equal.
  subst rest. rewrite <- !append_assoc.
  rewrite trimEnd_append; [reflexivity | discriminate].
Qed.

(* ================================================================== *)
(** ** Facts about events *)

Lemma actions_app (l l' : list Event) :
  actions (l ++ l') = (actions l ++ actions l')%list.
Proof. apply filter_app. Qed.

Lemma issues_calls_app (l l' : list Event) :
  issues_calls (l ++ l') = (issues_calls l ++ issues_calls l')%list.
Proof. apply flat_map_app. Qed.

(** The projections below only look at the requests and the timers. *)
Lemma issues_calls_actions (l : list Event) : issues_calls (actions l) = issues_calls l.
Proof.
  induction l as [|e l IH]; [reflexivity|].
  destruct e; simpl; unfold issues_calls in *; simpl; now rewrite ?IH.
Qed.

Lemma timeouts_actions (l : list Event) : timeouts (actions l) = timeouts l.
Proof.
  induction l as [|e l IH]; [reflexivity|].
  destruct e; simpl; unfold timeouts in *; simpl; now rewrite ?IH.
Qed.

Lemma locates_actions (l : list Event) : locates (actions l) = locates l.
Proof. unfold locates. now rewrite issues_calls_actions. Qed.

Lemma locates_app (l l' : list Event) :
  locates (l ++ l') = (locates l ++ locates l')%list.
Proof. unfold locates. now rewrite issues_calls_app, filter_app. Qed.

Lemma created_bodies_actions (l : list Event) : created_bodies (actions l) = created_bodies l.
Proof. unfold created_bodies. now rewrite issues_calls_actions. Qed.

Lemma firstn_snoc {A} (l : list A) (i : nat) (x : A) :
  nth_error l i = Some x -> firstn (Datatypes.S i) l = (firstn i l ++ [x])%list.
Proof.
  revert i; induction l as [|a l IH]; intros [|i] H; simpl in *; try discriminate.
  - now injection H as ->.
  - now rewrite (IH i H).
Qed.

Lemma logger_calls_app (l l' : list Event) :
  logger_calls (l ++ l') = (logger_calls l ++ logger_calls l')%list.
Proof. apply flat_map_app. Qed.

Lemma tested_app (l l' : list Event) : tested (l ++ l') = (tested l ++ tested l')%list.
Proof. unfold tested. now rewrite logger_calls_app, flat_map_app. Qed.

Lemma find_skip {A} (f : A -> bool) (l l' : list A) :
  forallb (fun x => negb (f x)) l = true -> find f (l ++ l') = find f l'.
Proof.
  induction l as [|x l IH]; cbn; [reflexivity|].
  rewrite andb_true_iff, negb_true_iff. intros [-> H]. now apply IH.
Qed.

Lemma forallb_rev {A} (f : A -> bool) (l : list A) : forallb f (rev l) = forallb f l.
Proof.
  induction l as [|x l IH]; [reflexivity|].
  cbn. rewrite forallb_app, IH. cbn. rewrite andb_true_r. apply andb_comm.
Qed.

(** The most recent match, read off the listing: the matching comment
    that no matching comment follows. *)
Lemma most_recent_match_latest (f : CommentData.t -> bool)
    (older newer : list CommentData.t) (c : CommentData.t) :
  f c = true -> forallb (fun x => negb (f x)) newer = true ->
  most_recent_match f (older ++ c :: newer) = Some c.
Proof.
  intros Hc Hnewer. unfold most_recent_match.
  rewrite rev_app_distr. cbn [rev]. rewrite <- app_assoc.
  rewrite find_skip by now rewrite forallb_rev.
  cbn. now rewrite Hc.
Qed.

Lemma most_recent_match_none (f : CommentData.t -> bool) (l : list CommentData.t) :
  forallb (fun x => negb (f x)) l = true -> most_recent_match f l = None.
Proof.
  intros H. unfold most_recent_match.
  rewrite <- (app_nil_r (rev l)). rewrite find_skip by now rewrite forallb_rev.
  reflexivity.
Qed.

(* ================================================================== *)
(** ** What each function does, as equations on its outcome *)

Ltac run_async :=
  cbv beta iota zeta delta
    [bind try_catch ret throw emit request get_context assign_context_id sleep
     logger_startGroup logger_endGroup logger_info logger_warn logger_debug];
  cbn [settled world events store context].

(** Drops the logging from a concatenation of events. *)
Ltac norm_actions :=
  rewrite ?actions_app; cbn [actions filter app]; rewrite ?app_nil_r.

Lemma in_logger_calls (c : Logger.call) (l : list Event) :
  In (LoggerCall c) l -> In c (logger_calls l).
Proof.
  intros H. unfold logger_calls. apply in_flat_map.
  exists (LoggerCall c). split; [exact H | now left].
Qed.

(** Finds a logger call among a concatenation of events. *)
Ltac find_logged :=
  apply in_logger_calls; rewrite ?in_app_iff; cbn [In]; intuition.

Section CommentsFacts.

Context {S : Type}.
Variable github : GitHubActionClient S.
Variable elapse : N -> S -> S.

(** The scan leaves the world alone, makes no request, and finds the
    last match among the [i] first comments. *)
Lemma readComment_scan_outcome (ctx : CommentContext.t) (comments : list CommentData.t)
    (i : nat) (w : World S) :
  i <= length comments ->
  settled (readComment_scan ctx comments i w)
    = Ok (find (CommentContext.matches ctx) (rev (firstn i comments)))
  /\ world (readComment_scan ctx comments i w) = w
  /\ actions (events (readComment_scan ctx comments i w)) = [].
Proof.
  induction i as [|i IH]; intros Hi.
  - now cbn.
  - destruct (nth_error comments i) as [c|] eqn:Hc.
    2:{ apply nth_error_None in Hc. lia. }
    rewrite (firstn_snoc _ _ _ Hc), rev_app_distr. cbn [rev app find].
    cbn [readComment_scan]. rewrite Hc.
    destruct (IH ltac:(lia)) as (IHs & IHw & IHe).
    destruct (CommentContext.matches ctx c) eqn:Hm.
    + run_async. now cbn.
    + run_async.
      destruct (readComment_scan ctx comments i w) as [r w' evs].
      cbn in IHs, IHw, IHe |- *. now subst.
Qed.

(** [readComment] with [context.id] set: one [getComment] request. *)
Lemma readComment_by_id_ok (w : World S) (id : positive) (c : CommentData.t) (s' : S) :
  CommentContext.id (context w) = Some id ->
  issues_getComment github (CommentContext.owner (context w))
    (CommentContext.repo (context w)) id (store w) = (Ok c, s') ->
  readComment github w =
    mkOutcome (Ok (Some c)) (mkWorld s' (context w))
      [LoggerCall (Logger.info ("Reading comment " ++ Js.string_of_pos id ++ "..."));
       IssuesCall (Issues.getComment (CommentContext.owner (context w))
                     (CommentContext.repo (context w)) id)].
Proof.
  intros Hid Hget. unfold readComment. run_async. rewrite Hid. run_async.
  rewrite Hget. reflexivity.
Qed.

Lemma readComment_by_id_throw (w : World S) (id : positive) (e : Js.Error) (s' : S) :
  CommentContext.id (context w) = Some id ->
  issues_getComment github (CommentContext.owner (context w))
    (CommentContext.repo (context w)) id (store w) = (Throw e, s') ->
  readComment github w =
    mkOutcome (Ok None) (mkWorld s' (context w))
      [LoggerCall (Logger.info ("Reading comment " ++ Js.string_of_pos id ++ "..."));
       IssuesCall (Issues.getComment (CommentContext.owner (context w))
                     (CommentContext.repo (context w)) id);
       LoggerCall (Logger.warn ("Error trying to read comments: " ++ Js.message e));
       LoggerCall (Logger.debug (ErrorToString e))].
Proof.
  intros Hid Hget. unfold readComment. run_async. rewrite Hid. run_async.
  rewrite Hget. reflexivity.
Qed.

(** [readComment] with [context.id] unset: one [listComments] request,
    then the scan of what it returned. *)
Lemma readComment_list_ok (w : World S) (comments : list CommentData.t) (s' : S) :
  CommentContext.id (context w) = None ->
  issues_listComments github (CommentContext.owner (context w))
    (CommentContext.repo (context w)) (CommentContext.issueNumber (context w)) (store w)
    = (Ok comments, s') ->
  settled (readComment github w)
    = Ok (most_recent_match (CommentContext.matches (context w)) comments)
  /\ world (readComment github w) = mkWorld s' (context w)
  /\ actions (events (readComment github w))
     = [IssuesCall (Issues.listComments (CommentContext.owner (context w))
                      (CommentContext.repo (context w))
                      (CommentContext.issueNumber (context w)))].
Proof.
  intros Hid Hlist. unfold readComment. run_async. rewrite Hid. run_async.
  rewrite Hlist.
  destruct (readComment_scan_outcome (context w) comments (length comments)
              (mkWorld s' (context w)) (le_n _)) as (Hs & Hw & He).
  rewrite firstn_all in Hs.
  destruct (readComment_scan _ _ _ _) as [r w' evs].
  cbn [settled world events] in *. subst r w'.
  cbn [settled world events app actions filter].
  repeat split. f_equal. exact He.
Qed.

Lemma readComment_list_throw (w : World S) (e : Js.Error) (s' : S) :
  CommentContext.id (context w) = None ->
  issues_listComments github (CommentContext.owner (context w))
    (CommentContext.repo (context w)) (CommentContext.issueNumber (context w)) (store w)
    = (Throw e, s') ->
  readComment github w =
    mkOutcome (Ok None) (mkWorld s' (context w))
      [LoggerCall (Logger.info "Trying to find matching comment...");
       IssuesCall (Issues.listComments (CommentContext.owner (context w))
                     (CommentContext.repo (context w))
                     (CommentContext.issueNumber (context w)));
       LoggerCall (Logger.warn ("Error trying to read comments: " ++ Js.message e));
       LoggerCall (Logger.debug (ErrorToString e))].
Proof.
  intros Hid Hlist. unfold readComment. run_async. rewrite Hid. run_async.
  rewrite Hlist. reflexivity.
Qed.

(** Whatever the store does, [readComment] returns, leaves [context] as
    it was, and has made exactly one request, a read. *)
Lemma readComment_summary (w : World S) :
  exists r c,
    settled (readComment github w) = Ok r
    /\ context (world (readComment github w)) = context w
    /\ actions (events (readComment github w)) = [IssuesCall c]
    /\ is_read c = true.
Proof.
  destruct (CommentContext.id (context w)) as [id|] eqn:Hid.
  - destruct (issues_getComment github (CommentContext.owner (context w))
                (CommentContext.repo (context w)) id (store w)) as [[c|e] s'] eqn:Hget.
    + rewrite (readComment_by_id_ok w id c s' Hid Hget).
      do 2 eexists. repeat split; reflexivity.
    + rewrite (readComment_by_id_throw w id e s' Hid Hget).
      do 2 eexists. repeat split; reflexivity.
  - destruct (issues_listComments github (CommentContext.owner (context w))
                (CommentContext.repo (context w)) (CommentContext.issueNumber (context w))
                (store w)) as [[cs|e] s'] eqn:Hlist.
    + destruct (readComment_list_ok w cs s' Hid Hlist) as (Hs & Hw & He).
      rewrite Hs, Hw, He. do 2 eexists. repeat split; reflexivity.
    + rewrite (readComment_list_throw w e s' Hid Hlist).
      do 2 eexists. repeat split; reflexivity.
Qed.

(** [initiateCommentLock] when the first read finds a comment. *)
Lemma initiateCommentLock_first (getInitialBody : option CommentData.t -> string)
    (w : World S) (c : CommentData.t) :
  settled (readComment github w) = Ok (Some c) ->
  let o := initiateCommentLock github elapse getInitialBody w in
  settled o = Ok c
  /\ world o = mkWorld (store (world (readComment github w)))
                 (CommentContext.set_id (Some (CommentData.id c)) (context w))
  /\ actions (events o) = actions (events (readComment github w)).
Proof.
  intros H1. destruct (readComment_summary w) as (r & k & _ & Hctx & _).
  cbn zeta. unfold initiateCommentLock. run_async.
  destruct (readComment github w) as [r1 w1 e1].
  cbn [settled world events] in *. subst r1. run_async.
  rewrite Hctx. repeat split. now norm_actions.
Qed.

(** [createComment]: one [createComment] request with the body it was
    given, whose answer it passes on. *)
Lemma createComment_outcome (body : string) (w : World S) :
  createComment github body w =
    mkOutcome
      (fst (issues_createComment github (CommentContext.owner (context w))
              (CommentContext.repo (context w)) (CommentContext.issueNumber (context w))
              body (store w)))
      (mkWorld
         (snd (issues_createComment github (CommentContext.owner (context w))
                 (CommentContext.repo (context w)) (CommentContext.issueNumber (context w))
                 body (store w)))
         (context w))
      [LoggerCall (Logger.info "Creating new comment...");
       LoggerCall (Logger.debug (NewBody body));
       IssuesCall (Issues.createComment (CommentContext.owner (context w))
                     (CommentContext.repo (context w))
                     (CommentContext.issueNumber (context w)) body)].
Proof.
  unfold createComment. run_async.
  destruct (issues_createComment _ _ _ _ _ _) as [[c|e] s']; reflexivity.
Qed.

(** [updateComment] without an id: the guard throws before anything
    else happens. *)
Lemma updateComment_null (body : string) (w : World S) :
  CommentContext.id (context w) = None ->
  updateComment github body w =
    mkOutcome
      (Throw (Js.mkError "Error"
                ("Cannot update comment if " ++ Js.dquote ++ "context.id" ++ Js.dquote
                 ++ " is null")))
      w [].
Proof.
  intros Hid. unfold updateComment. run_async. rewrite Hid. reflexivity.
Qed.

(** [updateComment] with an id: one [updateComment] request for that id,
    carrying the whole body. *)
Lemma updateComment_set (body : string) (w : World S) (id : positive) :
  CommentContext.id (context w) = Some id ->
  let answer :=
    issues_updateComment github (CommentContext.owner (context w))
      (CommentContext.repo (context w)) id body (store w) in
  let o := updateComment github body w in
  settled o = fst answer
  /\ world o = mkWorld (snd answer) (context w)
  /\ actions (events o)
     = [IssuesCall (Issues.updateComment (CommentContext.owner (context w))
                      (CommentContext.repo (context w)) id body)].
Proof.
  intros Hid. unfold updateComment. run_async. rewrite Hid. run_async.
  destruct (issues_updateComment _ _ _ _ _ _) as [[[]|e] s'];
    cbn [fst snd settled world events app actions filter]; repeat split.
Qed.

(** [initiateCommentLock] when the first read finds nothing and the
    second, after the wait, finds a comment. *)
Lemma initiateCommentLock_second (getInitialBody : option CommentData.t -> string)
    (w : World S) (c : CommentData.t) :
  settled (readComment github w) = Ok None ->
  settled (readComment github (after_wait github elapse w)) = Ok (Some c) ->
  let o := initiateCommentLock github elapse getInitialBody w in
  settled o = Ok c
  /\ world o = mkWorld (store (world (readComment github (after_wait github elapse w))))
                 (CommentContext.set_id (Some (CommentData.id c)) (context w))
  /\ actions (events o)
     = (actions (events (readComment github w))
        ++ [SetTimeout (CommentContext.delayFactor (context w) * 100)%N]
        ++ actions (events (readComment github (after_wait github elapse w))))%list.
Proof.
  intros H1 H2.
  destruct (readComment_summary w) as (r1 & k1 & _ & Hctx1 & _).
  destruct (readComment_summary (after_wait github elapse w)) as (r2 & k2 & _ & Hctx2 & _).
  cbn zeta. unfold initiateCommentLock. run_async.
  unfold after_wait in *.
  destruct (readComment github w) as [r w1 e1].
  cbn [settled world events] in *. subst r. run_async.
  destruct (readComment github _) as [r w2 e2].
  cbn [settled world events store context] in *. subst r. run_async.
  rewrite Hctx2, Hctx1. repeat split. now norm_actions.
Qed.

(** [initiateCommentLock] when both reads find nothing: it asks the
    store to create a comment whose body is [getInitialBody(null)], and
    the answer decides how it settles. *)
Lemma initiateCommentLock_create (getInitialBody : option CommentData.t -> string)
    (w : World S) :
  settled (readComment github w) = Ok None ->
  settled (readComment github (after_wait github elapse w)) = Ok None ->
  let w2 := world (readComment github (after_wait github elapse w)) in
  let answer :=
    issues_createComment github (CommentContext.owner (context w))
      (CommentContext.repo (context w)) (CommentContext.issueNumber (context w))
      (getInitialBody None) (store w2) in
  let o := initiateCommentLock github elapse getInitialBody w in
  actions (events o)
    = (actions (events (readComment github w))
       ++ [SetTimeout (CommentContext.delayFactor (context w) * 100)%N]
       ++ actions (events (readComment github (after_wait github elapse w)))
       ++ [IssuesCall (Issues.createComment (CommentContext.owner (context w))
                         (CommentContext.repo (context w))
                         (CommentContext.issueNumber (context w))
                         (getInitialBody None))])%list
  /\ match fst answer with
     | Ok c =>
         settled o = Ok c
         /\ world o = mkWorld (snd answer)
                        (CommentContext.set_id (Some (CommentData.id c)) (context w))
     | Throw e =>
         settled o = Throw e /\ world o = mkWorld (snd answer) (context w)
     end.
Proof.
  intros H1 H2.
  destruct (readComment_summary w) as (r1 & k1 & _ & Hctx1 & _).
  destruct (readComment_summary (after_wait github elapse w)) as (r2 & k2 & _ & Hctx2 & _).
  cbn zeta. unfold initiateCommentLock. run_async.
  unfold after_wait in *.
  destruct (readComment github w) as [r w1 e1].
  cbn [settled world events] in *. subst r. run_async.
  destruct (readComment github _) as [r w2 e2].
  cbn [settled world events store context] in *. subst r. run_async.
  rewrite createComment_outcome. rewrite Hctx2, Hctx1.
  destruct (issues_createComment _ _ _ _ _ _) as [[c|e] s'];
    cbn [fst snd settled world events store context];
    rewrite ?Hctx2, ?Hctx1; repeat split; now norm_actions.
Qed.

(** [initiateCommentLock] touches [context] only to store the id of the
    comment it returns. *)
Lemma initiateCommentLock_context (getInitialBody : option CommentData.t -> string)
    (w : World S) :
  context (world (initiateCommentLock github elapse getInitialBody w))
  = match settled (initiateCommentLock github elapse getInitialBody w) with
    | Ok c => CommentContext.set_id (Some (CommentData.id c)) (context w)
    | Throw _ => context w
    end.
Proof.
  destruct (readComment_summary w) as (r1 & k1 & Hs1 & _).
  destruct (readComment_summary (after_wait github elapse w)) as (r2 & k2 & Hs2 & _).
  destruct r1 as [c|].
  - destruct (initiateCommentLock_first getInitialBody w c Hs1) as (Ho & Hw & _).
    now rewrite Ho, Hw.
  - destruct r2 as [c|].
    + destruct (initiateCommentLock_second getInitialBody w c Hs1 Hs2) as (Ho & Hw & _).
      now rewrite Ho, Hw.
    + destruct (initiateCommentLock_create getInitialBody w Hs1 Hs2) as (_ & Hanswer).
      destruct (fst (issues_createComment _ _ _ _ _ _)) as [c|e];
        destruct Hanswer as (Ho & Hw); now rewrite Ho, Hw.
Qed.

(** [postOrUpdateComment] has no handler around the lock: when
    [initiateCommentLock] throws, so does it, having done nothing more. *)
Lemma postOrUpdateComment_lock_throws (getCommentBody : option CommentData.t -> string)
    (w : World S) (e : Js.Error) :
  settled (initiateCommentLock github elapse getCommentBody w) = Throw e ->
  settled (postOrUpdateComment github elapse getCommentBody w) = Throw e
  /\ actions (events (postOrUpdateComment github elapse getCommentBody w))
     = actions (events (initiateCommentLock github elapse getCommentBody w)).
Proof.
  intros H. unfold postOrUpdateComment, acquireCommentLock. run_async.
  destruct (initiateCommentLock github elapse getCommentBody w) as [r w1 e1].
  cbn [settled world events] in *. subst r. run_async.
  split; [reflexivity|]. now norm_actions.
Qed.

(** [postOrUpdateComment] once the lock returned [c]: one update of
    [c]'s id with [updatedBody]; when the store rejects it, one create
    with [getCommentBody(null) + context.footer], whose rejection is
    caught too.  Either way the call returns, and [context.id] stays
    [c]'s id. *)
Lemma postOrUpdateComment_lock_returns (getCommentBody : option CommentData.t -> string)
    (w : World S) (c : CommentData.t) :
  settled (initiateCommentLock github elapse getCommentBody w) = Ok c ->
  let lock := initiateCommentLock github elapse getCommentBody w in
  let ctx := context w in
  let update :=
    Issues.updateComment (CommentContext.owner ctx) (CommentContext.repo ctx)
      (CommentData.id c) (updatedBody ctx getCommentBody c) in
  let create :=
    Issues.createComment (CommentContext.owner ctx) (CommentContext.repo ctx)
      (CommentContext.issueNumber ctx) (getCommentBody None ++ CommentContext.footer ctx) in
  let o := postOrUpdateComment github elapse getCommentBody w in
  settled o = Ok tt
  /\ context (world o) = CommentContext.set_id (Some (CommentData.id c)) ctx
  /\ match fst (issues_updateComment github (CommentContext.owner ctx)
                  (CommentContext.repo ctx) (CommentData.id c)
                  (updatedBody ctx getCommentBody c) (store (world lock))) with
     | Ok _ => actions (events o) = (actions (events lock) ++ [IssuesCall update])%list
     | Throw e =>
         actions (events o)
           = (actions (events lock) ++ [IssuesCall update; IssuesCall create])%list
         /\ In (Logger.info ("Error updating comment: " ++ Js.message e))
              (logger_calls (events o))
     end.
Proof.
  intros H. cbn zeta.
  pose proof (initiateCommentLock_context getCommentBody w) as Hctx. rewrite H in Hctx.
  unfold postOrUpdateComment, acquireCommentLock. run_async.
  destruct (initiateCommentLock github elapse getCommentBody w) as [r w1 e1].
  cbn [settled world events] in *. subst r. run_async.
  unfold updateComment. run_async. rewrite Hctx.
  cbn [CommentContext.set_id CommentContext.id CommentContext.owner
       CommentContext.repo CommentContext.footer CommentContext.issueNumber].
  run_async.
  replace (if negb (Js.includes (getCommentBody (Some c)) (CommentContext.footer (context w)))
           then getCommentBody (Some c) ++ CommentContext.footer (context w)
           else getCommentBody (Some c))
    with (updatedBody (context w) getCommentBody c)
    by (unfold updatedBody; now destruct (Js.includes _ _)).
  destruct (issues_updateComment _ _ _ _ _ _) as [[[]|e] s']; run_async.
  - cbn [fst]. repeat split. now norm_actions.
  - rewrite createComment_outcome. cbn [context store]. rewrite ?Hctx.
    cbn [CommentContext.set_id CommentContext.id CommentContext.owner
         CommentContext.repo CommentContext.footer CommentContext.issueNumber].
    destruct (issues_createComment _ _ _ _ _ _) as [[c'|e'] s''];
      cbn [fst snd settled world events store context].
    + repeat split; [now norm_actions | now find_logged].
    + repeat split; [now norm_actions | now find_logged].
Qed.

(** The scan tests the [i] first comments from the last to the first,
    and stops at the first that matches. *)
Lemma readComment_scan_tested (ctx : CommentContext.t) (comments : list CommentData.t)
    (i : nat) (w : World S) :
  i <= length comments ->
  tested (events (readComment_scan ctx comments i w))
  = take_through (CommentContext.matches ctx) (rev (firstn i comments)).
Proof.
  induction i as [|i IH]; intros Hi.
  - reflexivity.
  - destruct (nth_error comments i) as [c|] eqn:Hc.
    2:{ apply nth_error_None in Hc. lia. }
    rewrite (firstn_snoc _ _ _ Hc), rev_app_distr. cbn [rev app take_through].
    cbn [readComment_scan]. rewrite Hc.
    specialize (IH ltac:(lia)).
    destruct (CommentContext.matches ctx c) eqn:Hm.
    + run_async. reflexivity.
    + run_async.
      destruct (readComment_scan ctx comments i w) as [r w' evs].
      cbn [settled world events] in *.
      rewrite tested_app, IH. reflexivity.
Qed.

(* ================================================================== *)
(** ** The staggered creation protocol *)

(** C3. The staggered creation protocol, [initiateCommentLock], for a
    context with delay factor [f] such that [f * 100] is a delay a
    timer takes as it is: at most two reads and at most one create.
    When the first read finds a comment, that comment is returned and
    the run made that one read and nothing else: no timer, no create.
    Otherwise the run arms one timer, with the delay [f * 100], awaits
    it, and reads again in the world the wait has left; this also when
    [f] is 0, where the delay is 0.  When the second read finds a
    comment it is returned and nothing is created.  Only when both
    reads find nothing is there a create request, exactly one, with the
    body [getInitialBody(null)], and the run settles as that request
    did: the created comment is returned.  In every case the returned
    comment's id is stored in [context.id].  A read never throws. *)
Theorem initiateCommentLock_protocol (getInitialBody : option CommentData.t -> string)
    (w : World S) :
  (CommentContext.delayFactor (context w) * 100 <= TIMEOUT_MAX)%N ->
  let ctx := context w in
  let delay := (CommentContext.delayFactor ctx * 100)%N in
  let first := readComment github w in
  let second := readComment github (after_wait github elapse w) in
  let o := initiateCommentLock github elapse getInitialBody w in
  (length (locates (events o)) <= 2 /\ length (created_bodies (events o)) <= 1)
  /\ match settled first with
     | Ok (Some c) =>
         settled o = Ok c
         /\ CommentContext.id (context (world o)) = Some (CommentData.id c)
         /\ actions (events o) = actions (events first)
         /\ length (locates (events o)) = 1
         /\ timeouts (events o) = []
         /\ created_bodies (events o) = []
     | Ok None =>
         timeouts (events o) = [delay]
         /\ length (locates (events o)) = 2
         /\ match settled second with
            | Ok (Some c) =>
                settled o = Ok c
                /\ CommentContext.id (context (world o)) = Some (CommentData.id c)
                /\ actions (events o)
                   = (actions (events first) ++ [SetTimeout delay]
                      ++ actions (events second))%list
                /\ created_bodies (events o) = []
            | Ok None =>
                actions (events o)
                  = (actions (events first) ++ [SetTimeout delay]
                     ++ actions (events second)
                     ++ [IssuesCall
                           (Issues.createComment (CommentContext.owner ctx)
                              (CommentContext.repo ctx) (CommentContext.issueNumber ctx)
                              (getInitialBody None))])%list
                /\ created_bodies (events o) = [getInitialBody None]
                /\ settled o
                   = fst (issues_createComment github (CommentContext.owner ctx)
                            (CommentContext.repo ctx) (CommentContext.issueNumber ctx)
                            (getInitialBody None) (store (world second)))
                /\ (forall c, settled o = Ok c ->
                      CommentContext.id (context (world o)) = Some (CommentData.id c))
            | Throw _ => False
            end
     | Throw _ => False
     end.
Proof.
  intros _. cbn zeta.
  destruct (readComment_summary w) as (r1 & k1 & Hs1 & Hctx1 & Ha1 & Hk1).
  destruct (readComment_summary (after_wait github elapse w))
    as (r2 & k2 & Hs2 & Hctx2 & Ha2 & Hk2).
  rewrite Hs1. destruct r1 as [c|].
  - destruct (initiateCommentLock_first getInitialBody w c Hs1) as (Ho & Hw & Ha).
    rewrite <- locates_actions, <- created_bodies_actions, <- timeouts_actions,
      Ha, Ha1, Ho, Hw.
    destruct k1; try discriminate Hk1; unfold locates; cbn; repeat split; lia.
  - rewrite Hs2. destruct r2 as [c|].
    + destruct (initiateCommentLock_second getInitialBody w c Hs1 Hs2) as (Ho & Hw & Ha).
      rewrite <- locates_actions, <- created_bodies_actions, <- timeouts_actions,
        Ha, Ha1, Ha2, Ho, Hw.
      destruct k1; try discriminate Hk1; destruct k2; try discriminate Hk2;
        unfold locates; cbn; repeat split; lia.
    + destruct (initiateCommentLock_create getInitialBody w Hs1 Hs2) as (Ha & Hanswer).
      rewrite <- locates_actions, <- created_bodies_actions, <- timeouts_actions,
        Ha, Ha1, Ha2.
      destruct (fst (issues_createComment _ _ _ _ _ _)) as [c|e];
        destruct Hanswer as (Ho & Hw); rewrite Ho, Hw;
        destruct k1; try discriminate Hk1; destruct k2; try discriminate Hk2;
        unfold locates; cbn; repeat split; try lia;
        intros c' [=]; subst; reflexivity.
Qed.

(* ================================================================== *)
(** ** Locating the comment *)

(** C5. [readComment] with [context.id] unset sends one [listComments]
    request, without a page argument, and nothing else: it looks at the
    first page only.  It tests the comments of that page from the last
    to the first and stops at the first that matches, which it returns:
    the most recent match of a listing that is ordered oldest first.
    When several comments match, the one no other match follows is
    returned; when none matches, the result is [undefined]. *)
Theorem readComment_scans_first_page (w : World S) (comments : list CommentData.t)
    (s' : S) :
  CommentContext.id (context w) = None ->
  issues_listComments github (CommentContext.owner (context w))
    (CommentContext.repo (context w)) (CommentContext.issueNumber (context w)) (store w)
    = (Ok comments, s') ->
  let o := readComment github w in
  let matches := CommentContext.matches (context w) in
  issues_calls (events o)
    = [Issues.listComments (CommentContext.owner (context w))
         (CommentContext.repo (context w)) (CommentContext.issueNumber (context w))]
  /\ tested (events o) = take_through matches (rev comments)
  /\ settled o = Ok (most_recent_match matches comments)
  /\ (forall older c newer,
        comments = (older ++ c :: newer)%list ->
        matches c = true ->
        forallb (fun x => negb (matches x)) newer = true ->
        settled o = Ok (Some c))
  /\ (forallb (fun x => negb (matches x)) comments = true -> settled o = Ok None).
Proof.
  intros Hid Hlist. cbn zeta.
  destruct (readComment_list_ok w comments s' Hid Hlist) as (Hs & Hw & Ha).
  assert (Ht : tested (events (readComment github w))
               = take_through (CommentContext.matches (context w)) (rev comments)).
  { pose proof (readComment_scan_tested (context w) comments (length comments)
                  (mkWorld s' (context w)) (le_n _)) as Hscan.
    pose proof (readComment_scan_outcome (context w) comments (length comments)
                  (mkWorld s' (context w)) (le_n _)) as (Hok & _).
    rewrite firstn_all in Hscan.
    unfold readComment. run_async. rewrite Hid. run_async. rewrite Hlist.
    destruct (readComment_scan _ _ _ _) as [r w' evs].
    cbn [settled world events] in *. subst r.
    cbn [settled world events]. rewrite !tested_app, Hscan. reflexivity. }
  rewrite <- issues_calls_actions, Ha, Ht, Hs.
  repeat split.
  - intros older c newer -> Hc Hnewer. now rewrite most_recent_match_latest.
  - intros Hnone. now rewrite most_recent_match_none.
Qed.

(** C6. When the store rejects the request [readComment] makes, either
    [getComment] or [listComments], with any error [e], [readComment]
    still returns, with [undefined], after one [logger.warn] call that
    carries [e.message]; nothing is thrown to the caller. *)
Theorem readComment_catches (w : World S) (e : Js.Error) :
  read_rejected github w e ->
  let o := readComment github w in
  settled o = Ok None
  /\ context (world o) = context w
  /\ exists request,
       events o
       = [LoggerCall request;
          IssuesCall (match CommentContext.id (context w) with
                      | Some id =>
                          Issues.getComment (CommentContext.owner (context w))
                            (CommentContext.repo (context w)) id
                      | None =>
                          Issues.listComments (CommentContext.owner (context w))
                            (CommentContext.repo (context w))
                            (CommentContext.issueNumber (context w))
                      end);
          LoggerCall (Logger.warn ("Error trying to read comments: " ++ Js.message e));
          LoggerCall (Logger.debug (ErrorToString e))].
Proof.
  unfold read_rejected. intros H. cbn zeta.
  destruct (CommentContext.id (context w)) as [id|] eqn:Hid.
  - destruct (issues_getComment _ _ _ _ _) as [r s'] eqn:Hget.
    cbn [fst] in H. subst r.
    rewrite (readComment_by_id_throw w id e s' Hid Hget).
    repeat split. eexists. reflexivity.
  - destruct (issues_listComments _ _ _ _ _) as [r s'] eqn:Hlist.
    cbn [fst] in H. subst r.
    rewrite (readComment_list_throw w e s' Hid Hlist).
    repeat split. eexists. reflexivity.
Qed.

(** C9. [readComment] with [context.id] set returns the comment that
    [getComment] yields as it is: [context.matches] is not consulted
    (no comment is tested), so the author and the body of that comment
    play no part. *)
Theorem readComment_by_id_unchecked (w : World S) (id : positive)
    (c : CommentData.t) (s' : S) :
  CommentContext.id (context w) = Some id ->
  issues_getComment github (CommentContext.owner (context w))
    (CommentContext.repo (context w)) id (store w) = (Ok c, s') ->
  settled (readComment github w) = Ok (Some c)
  /\ tested (events (readComment github w)) = [].
Proof.
  intros Hid Hget. rewrite (readComment_by_id_ok w id c s' Hid Hget).
  split; reflexivity.
Qed.

(* ================================================================== *)
(** ** Writing the comment *)

(** C7. [updateComment] on a context whose [id] is [null] throws the
    precondition error at once: it has made no call at all, and the
    world, store included, is as it was.  On a context whose [id] is
    set it sends exactly one request, an update of that id that
    carries the body it was given, whole. *)
Theorem updateComment_requires_id (body : string) (w : World S) :
  let o := updateComment github body w in
  match CommentContext.id (context w) with
  | None =>
      settled o
        = Throw (Js.mkError "Error"
                   ("Cannot update comment if " ++ Js.dquote ++ "context.id" ++ Js.dquote
                    ++ " is null"))
      /\ world o = w
      /\ events o = []
  | Some id =>
      issues_calls (events o)
        = [Issues.updateComment (CommentContext.owner (context w))
             (CommentContext.repo (context w)) id body]
      /\ context (world o) = context w
  end.
Proof.
  cbn zeta. destruct (CommentContext.id (context w)) as [id|] eqn:Hid.
  - destruct (updateComment_set body w id Hid) as (_ & Hw & Ha).
    rewrite <- issues_calls_actions, Ha, Hw. split; reflexivity.
  - rewrite (updateComment_null body w Hid). repeat split.
Qed.

End CommentsFacts.

(* ================================================================== *)
(** ** The match predicate of [createCommentContext] *)

(** C4. The [matches] of a context built by [createCommentContext]
    accepts a comment exactly when its [user.type] is the string "Bot"
    and its body contains the trimmed footer somewhere, with any text
    before and after; a comment of any other author is rejected whatever
    its body holds, the footer included.  The trimmed footer is the
    footer without the two line breaks it starts with. *)
Theorem matches_bot_with_footer (action : GitHubActionContext)
    (workflowInfo : WorkflowRunInfo) (c : CommentData.t) :
  let ctx := createCommentContext action workflowInfo in
  (CommentContext.matches ctx c = true <->
     CommentData.type (CommentData.user c) = "Bot"
     /\ exists before after,
          CommentData.body c = before ++ Js.trim (footer_of workflowInfo) ++ after)
  /\ (CommentData.type (CommentData.user c) <> "Bot" ->
      CommentContext.matches ctx c = false)
  /\ CommentContext.footer ctx
     = Js.newline ++ Js.newline ++ Js.source (CommentContext.footerRe ctx).
Proof.
  cbn zeta. split; [|split].
  - cbn [createCommentContext CommentContext.matches].
    unfold Js.test. cbn [Js.source].
    now rewrite andb_true_iff, String.eqb_eq, includes_spec.
  - intros Hhuman. cbn [createCommentContext CommentContext.matches].
    apply andb_false_iff. left. now apply String.eqb_neq.
  - cbn [createCommentContext CommentContext.footer CommentContext.footerRe Js.source].
    apply footer_of_trim.
Qed.

(** The body [postOrUpdateComment] writes in its update always holds
    the footer, once: it is the computed body itself when that holds
    the footer, and the computed body followed by the footer when it
    does not. *)
Lemma updatedBody_footer (ctx : CommentContext.t)
    (getCommentBody : option CommentData.t -> string) (c : CommentData.t) :
  Js.includes (updatedBody ctx getCommentBody c) (CommentContext.footer ctx) = true
  /\ (Js.includes (getCommentBody (Some c)) (CommentContext.footer ctx) = true ->
      updatedBody ctx getCommentBody c = getCommentBody (Some c))
  /\ (Js.includes (getCommentBody (Some c)) (CommentContext.footer ctx) = false ->
      updatedBody ctx getCommentBody c
      = getCommentBody (Some c) ++ CommentContext.footer ctx).
Proof.
  unfold updatedBody.
  destruct (Js.includes (getCommentBody (Some c)) (CommentContext.footer ctx)) eqn:H.
  - repeat split; [exact H | discriminate].
  - repeat split; [apply includes_append_r | discriminate].
Qed.

(** C10. On a context built by [createCommentContext], when both reads
    of [initiateCommentLock] find nothing, the one create request it
    sends carries [getInitialBody(null)] as it is: no footer is added on
    this path.  So when that body does not contain the pattern of
    [footerRe] and the store returns the comment with the body it was
    given, the comment returned does not satisfy [matches].  The body
    the orchestrator then writes over it, [updatedBody], does contain
    the pattern: with that body a comment of a "Bot" matches. *)
Theorem lock_creates_without_footer {S : Type} (github : GitHubActionClient S)
    (elapse : N -> S -> S) (action : GitHubActionContext)
    (workflowInfo : WorkflowRunInfo) (getInitialBody : option CommentData.t -> string)
    (s : S) (c : CommentData.t) :
  let ctx := createCommentContext action workflowInfo in
  let w := mkWorld s ctx in
  let o := initiateCommentLock github elapse getInitialBody w in
  settled (readComment github w) = Ok None ->
  settled (readComment github (after_wait github elapse w)) = Ok None ->
  fst (issues_createComment github (CommentContext.owner ctx) (CommentContext.repo ctx)
         (CommentContext.issueNumber ctx) (getInitialBody None)
         (store (world (readComment github (after_wait github elapse w))))) = Ok c ->
  CommentData.body c = getInitialBody None ->
  Js.test (CommentContext.footerRe ctx) (getInitialBody None) = false ->
  created_bodies (events o) = [getInitialBody None]
  /\ settled o = Ok c
  /\ CommentContext.matches ctx c = false
  /\ forall rewritten,
       CommentData.body rewritten = updatedBody ctx getInitialBody c ->
       CommentData.type (CommentData.user rewritten) = "Bot" ->
       CommentContext.matches ctx rewritten = true.
Proof.
  cbn zeta. intros H1 H2 Hcreate Hbody Hlacks.
  destruct (initiateCommentLock_create github elapse getInitialBody _ H1 H2) as (Ha & Hanswer).
  cbn [context] in Ha, Hanswer. rewrite Hcreate in Hanswer. destruct Hanswer as (Ho & _).
  rewrite <- created_bodies_actions, Ha, Ho.
  destruct (readComment_summary github (mkWorld s (createCommentContext action workflowInfo)))
    as (r1 & k1 & _ & _ & Ha1 & Hk1).
  destruct (readComment_summary github
              (after_wait github elapse (mkWorld s (createCommentContext action workflowInfo))))
    as (r2 & k2 & _ & _ & Ha2 & Hk2).
  rewrite Ha1, Ha2. repeat split.
  - destruct k1; try discriminate Hk1; destruct k2; try discriminate Hk2; reflexivity.
  - cbn [createCommentContext CommentContext.matches]. rewrite Hbody.
    cbn [createCommentContext CommentContext.footerRe] in Hlacks. rewrite Hlacks.
    apply andb_false_r.
  - intros rewritten Hrewritten Hbot.
    cbn [createCommentContext CommentContext.matches]. rewrite Hbot, Hrewritten.
    cbn [String.eqb Ascii.eqb Bool.eqb andb]. unfold Js.test. cbn [Js.source].
    apply includes_trans with (t := footer_of workflowInfo).
    + apply (updatedBody_footer (createCommentContext action workflowInfo)).
    + apply includes_trim.
Qed.

(* ================================================================== *)
(** ** The orchestrator *)

(** [postOrUpdateComment] settles as the lock does: it returns whenever
    [initiateCommentLock] returns, and throws what that throws. *)
Lemma postOrUpdateComment_settled {S : Type} (github : GitHubActionClient S)
    (elapse : N -> S -> S) (getCommentBody : option CommentData.t -> string)
    (w : World S) :
  settled (postOrUpdateComment github elapse getCommentBody w)
  = match settled (initiateCommentLock github elapse getCommentBody w) with
    | Ok _ => Ok tt
    | Throw e => Throw e
    end.
Proof.
  destruct (settled (initiateCommentLock github elapse getCommentBody w)) as [c|e] eqn:H.
  - now destruct (postOrUpdateComment_lock_returns github elapse getCommentBody w c H).
  - now destruct (postOrUpdateComment_lock_throws github elapse getCommentBody w e H).
Qed.

(** C1. [postOrUpdateComment] does not always return.  On an issue
    without a matching comment, before and after the wait, the create
    request that [initiateCommentLock] sends is outside every [try]:
    when the store rejects it, the error reaches the caller of
    [postOrUpdateComment], and no "Error creating comment" line is
    logged. *)
Theorem postOrUpdateComment_throws_on_lock_create :
  let o := postOrUpdateComment Script.github Script.elapse Scenario.report
             (Scenario.start Scenario.create_rejected Scenario.ctx) in
  settled o = Throw Scenario.serverError
  /\ actions (events o)
     = [IssuesCall (Issues.listComments "o" "r" 5);
        SetTimeout 300;
        IssuesCall (Issues.listComments "o" "r" 5);
        IssuesCall (Issues.createComment "o" "r" 5 "report")]
  /\ logger_calls (events o)
     = [Logger.info "Updating PR comment:";
        Logger.startGroup "Initiating comment lock...";
        Logger.info "Trying to find matching comment...";
        Logger.info "Comment not found. Waiting 300ms before trying again...";
        Logger.info "Trying to find matching comment...";
        Logger.info "After delay, comment not found. Creating comment...";
        Logger.info "Creating new comment...";
        Logger.debug (NewBody "report")].
Proof. vm_compute. repeat split. Qed.

(** C2. The create request that follows a rejected update carries
    [getCommentBody(null) + context.footer] without looking for the
    footer first.  With a body producer whose output already ends with
    the footer, the update writes that output unchanged, and the create
    that follows its rejection writes it with a second footer. *)
Theorem fallback_create_repeats_footer :
  let footer := CommentContext.footer Scenario.ctx in
  let o := postOrUpdateComment Script.github Script.elapse Scenario.report_with_footer
             (Scenario.start Scenario.update_rejected Scenario.ctx) in
  settled o = Ok tt
  /\ Js.includes (Scenario.report_with_footer None) footer = true
  /\ updated_bodies (events o) = [(7%positive, "report" ++ footer)]
  /\ created_bodies (events o) = ["report" ++ footer ++ footer]
  /\ occurrences footer ("report" ++ footer ++ footer) = 2.
Proof. vm_compute. repeat split. Qed.

(* ================================================================== *)
(** ** The theorems at concrete runs *)

Lemma readComment_scans_first_page_witness :
  let w := Scenario.start [Script.listing Scenario.listing] Scenario.ctx in
  CommentContext.id (context w) = None
  /\ issues_listComments Script.github "o" "r" 5 (store w) = (Ok Scenario.listing, [])
  /\ tested (events (readComment Script.github w))
     = [Scenario.bot 9 "coverage report";
        Scenario.bot 8 ("second" ++ CommentContext.footer Scenario.ctx)]
  /\ settled (readComment Script.github w)
     = Ok (Some (Scenario.bot 8 ("second" ++ CommentContext.footer Scenario.ctx))).
Proof.
  cbn zeta. split; [reflexivity|]. split; [reflexivity|].
  destruct (readComment_scans_first_page Script.github
              (Scenario.start [Script.listing Scenario.listing] Scenario.ctx)
              Scenario.listing [] eq_refl eq_refl) as (_ & Ht & Hs & _).
  split; [exact Ht | exact Hs].
Defined.

Lemma readComment_catches_witness :
  let w := Scenario.start [Script.fails Scenario.serverError] Scenario.ctx in
  read_rejected Script.github w Scenario.serverError
  /\ settled (readComment Script.github w) = Ok None
  /\ In (Logger.warn "Error trying to read comments: Server Error")
        (logger_calls (events (readComment Script.github w))).
Proof.
  cbn zeta.
  assert (H : read_rejected Script.github
                (Scenario.start [Script.fails Scenario.serverError] Scenario.ctx)
                Scenario.serverError) by reflexivity.
  split; [exact H|].
  destruct (readComment_catches Script.github _ _ H) as (Hs & _ & request & He).
  split; [exact Hs|]. rewrite He. right. left. reflexivity.
Defined.

Lemma readComment_by_id_unchecked_witness :
  let stranger := Scenario.human 7 "not the report" in
  let w := Scenario.start [Script.comment stranger]
             (CommentContext.set_id (Some 7%positive) Scenario.ctx) in
  CommentContext.matches Scenario.ctx stranger = false
  /\ settled (readComment Script.github w) = Ok (Some stranger).
Proof.
  cbn zeta. split; [reflexivity|].
  apply (readComment_by_id_unchecked Script.github
           (Scenario.start [Script.comment (Scenario.human 7 "not the report")]
              (CommentContext.set_id (Some 7%positive) Scenario.ctx))
           7%positive (Scenario.human 7 "not the report") []); reflexivity.
Defined.

Lemma lock_creates_without_footer_witness :
  let w := Scenario.start Scenario.create_accepted Scenario.ctx in
  let o := initiateCommentLock Script.github Script.elapse Scenario.report w in
  created_bodies (events o) = ["report"]
  /\ settled o = Ok (Scenario.bot 7 "report")
  /\ CommentContext.matches Scenario.ctx (Scenario.bot 7 "report") = false.
Proof.
  cbn zeta.
  destruct (lock_creates_without_footer Script.github Script.elapse
              Scenario.actionContext Scenario.workflowInfo Scenario.report
              Scenario.create_accepted (Scenario.bot 7 "report"))
    as (Hc & Hs & Hm & _); try (vm_compute; reflexivity).
  split; [exact Hc|]. split; [exact Hs | exact Hm].
Defined.

Lemma initiateCommentLock_protocol_witness :
  let o := initiateCommentLock Script.github Script.elapse Scenario.report
             (Scenario.start Scenario.create_accepted Scenario.ctx) in
  actions (events o)
  = [IssuesCall (Issues.listComments "o" "r" 5);
     SetTimeout 300;
     IssuesCall (Issues.listComments "o" "r" 5);
     IssuesCall (Issues.createComment "o" "r" 5 "report")]
  /\ settled o = Ok (Scenario.bot 7 "report").
Proof.
  cbn zeta.
  destruct (initiateCommentLock_protocol Script.github Script.elapse Scenario.report
              (Scenario.start Scenario.create_accepted Scenario.ctx))
    as (_ & _ & _ & Ha & _ & Hs & _); [vm_compute; discriminate|].
  split; [exact Ha | exact Hs].
Defined.

Lemma matches_bot_with_footer_witness :
  CommentContext.matches Scenario.ctx
    (Scenario.bot 7 ("old" ++ CommentContext.footer Scenario.ctx)) = true
  /\ CommentContext.matches Scenario.ctx
       (Scenario.human 6 ("quoted" ++ CommentContext.footer Scenario.ctx)) = false.
Proof.
  split.
  - apply (matches_bot_with_footer Scenario.actionContext Scenario.workflowInfo
             (Scenario.bot 7 ("old" ++ CommentContext.footer Scenario.ctx))).
    split; [reflexivity|].
    exists ("old" ++ Js.newline ++ Js.newline), "". vm_compute. reflexivity.
  - apply (matches_bot_with_footer Scenario.actionContext Scenario.workflowInfo
             (Scenario.human 6 ("quoted" ++ CommentContext.footer Scenario.ctx))).
    discriminate.
Defined.

Lemma updateComment_requires_id_witness :
  let o := updateComment Script.github "report"
             (Scenario.start [Script.comment (Scenario.bot 7 "report")] Scenario.ctx) in
  world o = Scenario.start [Script.comment (Scenario.bot 7 "report")] Scenario.ctx
  /\ events o = [].
Proof.
  cbn zeta.
  destruct (updateComment_requires_id Script.github "report"
              (Scenario.start [Script.comment (Scenario.bot 7 "report")] Scenario.ctx))
    as (_ & Hw & He).
  split; [exact Hw | exact He].
Defined.

(* ================================================================== *)
(** ** More about locating the comment *)

Lemma updated_bodies_actions (l : list Event) :
  updated_bodies (actions l) = updated_bodies l.
Proof. unfold updated_bodies. now rewrite issues_calls_actions. Qed.

(** The one request of a [readComment] is the read its context calls
    for, and the context is the same afterwards. *)
Lemma readComment_request {S : Type} (github : GitHubActionClient S) (w : World S) :
  actions (events (readComment github w)) = [IssuesCall (read_request (context w))]
  /\ context (world (readComment github w)) = context w
  /\ exists r, settled (readComment github w) = Ok r.
Proof.
  unfold read_request.
  destruct (CommentContext.id (context w)) as [id|] eqn:Hid.
  - destruct (issues_getComment github (CommentContext.owner (context w))
                (CommentContext.repo (context w)) id (store w)) as [[c|e] s'] eqn:Hget.
    + rewrite (readComment_by_id_ok github w id c s' Hid Hget).
      repeat split. now eexists.
    + rewrite (readComment_by_id_throw github w id e s' Hid Hget).
      repeat split. now eexists.
  - destruct (issues_listComments github (CommentContext.owner (context w))
                (CommentContext.repo (context w)) (CommentContext.issueNumber (context w))
                (store w)) as [[cs|e] s'] eqn:Hlist.
    + destruct (readComment_list_ok github w cs s' Hid Hlist) as (Hs & Hw & Ha).
      rewrite Hs, Hw, Ha. repeat split. now eexists.
    + rewrite (readComment_list_throw github w e s' Hid Hlist).
      repeat split. now eexists.
Qed.

(** X1. [readComment] only reads.  In every world and whatever the
    store answers, it sends exactly one request, the [getComment] or
    [listComments] its context calls for; it sends no create and no
    update, arms no timer, leaves [context] as it found it, and returns. *)
Theorem readComment_only_reads {S : Type} (github : GitHubActionClient S) (w : World S) :
  let o := readComment github w in
  issues_calls (events o) = [read_request (context w)]
  /\ created_bodies (events o) = []
  /\ updated_bodies (events o) = []
  /\ timeouts (events o) = []
  /\ context (world o) = context w
  /\ exists r, settled o = Ok r.
Proof.
  cbn zeta. destruct (readComment_request github w) as (Ha & Hctx & Hr).
  rewrite <- issues_calls_actions, <- created_bodies_actions, <- updated_bodies_actions,
    <- timeouts_actions, Ha.
  unfold read_request.
  destruct (CommentContext.id (context w)); repeat split; assumption.
Qed.

(* ================================================================== *)
(** ** More about the protocol and the orchestrator *)

(** The requests and timers of [initiateCommentLock], in its three
    courses. *)
Lemma initiateCommentLock_actions {S : Type} (github : GitHubActionClient S)
    (elapse : N -> S -> S) (getInitialBody : option CommentData.t -> string)
    (w : World S) :
  let read := IssuesCall (read_request (context w)) in
  let wait := SetTimeout (CommentContext.delayFactor (context w) * 100)%N in
  let create :=
    IssuesCall (Issues.createComment (CommentContext.owner (context w))
                  (CommentContext.repo (context w))
                  (CommentContext.issueNumber (context w)) (getInitialBody None)) in
  let lock := initiateCommentLock github elapse getInitialBody w in
  (actions (events lock) = [read] /\ exists c, settled lock = Ok c)
  \/ (actions (events lock) = [read; wait; read] /\ exists c, settled lock = Ok c)
  \/ actions (events lock) = [read; wait; read; create].
Proof.
  cbn zeta.
  destruct (readComment_request github w) as (Ha1 & Hctx1 & r1 & Hs1).
  destruct (readComment_request github (after_wait github elapse w))
    as (Ha2 & Hctx2 & r2 & Hs2).
  assert (Hctx : context (after_wait github elapse w) = context w)
    by (unfold after_wait; cbn [context]; exact Hctx1).
  rewrite Hctx in Ha2.
  destruct r1 as [c|].
  - left. destruct (initiateCommentLock_first github elapse getInitialBody w c Hs1)
      as (Ho & _ & Ha).
    rewrite Ha, Ha1. split; [reflexivity | now exists c].
  - destruct r2 as [c|].
    + right; left.
      destruct (initiateCommentLock_second github elapse getInitialBody w c Hs1 Hs2)
        as (Ho & _ & Ha).
      rewrite Ha, Ha1, Ha2. split; [reflexivity | now exists c].
    + right; right.
      destruct (initiateCommentLock_create github elapse getInitialBody w Hs1 Hs2)
        as (Ha & _).
      rewrite Ha, Ha1, Ha2. reflexivity.
Qed.

(** What [postOrUpdateComment] adds to the requests of the lock:
    nothing when the lock threw, and otherwise one update of the
    context's repository, followed after a rejection by one create for
    the context's issue. *)
Lemma postOrUpdateComment_actions {S : Type} (github : GitHubActionClient S)
    (elapse : N -> S -> S) (getCommentBody : option CommentData.t -> string)
    (w : World S) :
  let lock := initiateCommentLock github elapse getCommentBody w in
  let o := postOrUpdateComment github elapse getCommentBody w in
  let create :=
    IssuesCall (Issues.createComment (CommentContext.owner (context w))
                  (CommentContext.repo (context w))
                  (CommentContext.issueNumber (context w))
                  (getCommentBody None ++ CommentContext.footer (context w))) in
  actions (events o) = actions (events lock)
  \/ exists id body,
       let update :=
         IssuesCall (Issues.updateComment (CommentContext.owner (context w))
                       (CommentContext.repo (context w)) id body) in
       Js.includes body (CommentContext.footer (context w)) = true
       /\ (actions (events o) = (actions (events lock) ++ [update])%list
           \/ actions (events o) = (actions (events lock) ++ [update; create])%list).
Proof.
  cbn zeta.
  destruct (settled (initiateCommentLock github elapse getCommentBody w)) as [c|e] eqn:H.
  - right. exists (CommentData.id c), (updatedBody (context w) getCommentBody c).
    split; [apply updatedBody_footer|].
    destruct (postOrUpdateComment_lock_returns github elapse getCommentBody w c H)
      as (_ & _ & Hupdate).
    destruct (fst (issues_updateComment _ _ _ _ _ _)) as [[]|e].
    + now left.
    + right. apply Hupdate.
  - left. apply (postOrUpdateComment_lock_throws github elapse getCommentBody w e H).
Qed.

Ltac orchestrator_cases github elapse getCommentBody w :=
  let Hlock := fresh "Hlock" in
  let Horch := fresh "Horch" in
  pose proof (initiateCommentLock_actions github elapse getCommentBody w) as Hlock;
  pose proof (postOrUpdateComment_actions github elapse getCommentBody w) as Horch;
  cbn zeta in Hlock, Horch;
  destruct Hlock as [(Hlock & _) | [(Hlock & _) | Hlock]];
  destruct Horch as [Horch | (id & body & Hfooter & [Horch | Horch])];
  rewrite Horch, Hlock; clear Horch Hlock.

(** X2. Every request of a [postOrUpdateComment] run, in every course
    it can take, names the owner and the repository of its context, and
    every listing and every create names the context's issue: a run
    never reads or writes another repository or another issue. *)
Theorem postOrUpdateComment_stays_on_issue {S : Type} (github : GitHubActionClient S)
    (elapse : N -> S -> S) (getCommentBody : option CommentData.t -> string)
    (w : World S) :
  Forall (addressed_to (context w))
         (issues_calls (events (postOrUpdateComment github elapse getCommentBody w))).
Proof.
  rewrite <- issues_calls_actions.
  orchestrator_cases github elapse getCommentBody w;
    unfold read_request; destruct (CommentContext.id (context w));
    cbn; repeat constructor.
Qed.

(** X3. A [postOrUpdateComment] run retries nothing.  Whatever the store
    answers, it sends at most two reads, one update and two creates
    (one by the lock, one after a rejected update), five requests at
    most, and arms at most one timer. *)
Theorem postOrUpdateComment_bounded {S : Type} (github : GitHubActionClient S)
    (elapse : N -> S -> S) (getCommentBody : option CommentData.t -> string)
    (w : World S) :
  let o := postOrUpdateComment github elapse getCommentBody w in
  length (locates (events o)) <= 2
  /\ length (updated_bodies (events o)) <= 1
  /\ length (created_bodies (events o)) <= 2
  /\ length (issues_calls (events o)) <= 5
  /\ length (timeouts (events o)) <= 1.
Proof.
  cbn zeta.
  rewrite <- locates_actions, <- updated_bodies_actions, <- created_bodies_actions,
    <- issues_calls_actions, <- timeouts_actions.
  orchestrator_cases github elapse getCommentBody w;
    unfold read_request; destruct (CommentContext.id (context w));
    cbn; repeat split; lia.
Qed.

(** X4. What a [postOrUpdateComment] run writes.  Every body it sends in
    an update contains [context.footer].  Every body it sends in a
    create is [getCommentBody(null)] as it is (the lock's create) or
    [getCommentBody(null)] followed by the footer (the create after a
    rejected update). *)
Theorem postOrUpdateComment_written_bodies {S : Type} (github : GitHubActionClient S)
    (elapse : N -> S -> S) (getCommentBody : option CommentData.t -> string)
    (w : World S) :
  let o := postOrUpdateComment github elapse getCommentBody w in
  Forall (fun written => Js.includes (snd written) (CommentContext.footer (context w)) = true)
         (updated_bodies (events o))
  /\ Forall (fun body => body = getCommentBody None
                         \/ body = getCommentBody None ++ CommentContext.footer (context w))
            (created_bodies (events o)).
Proof.
  cbn zeta.
  rewrite <- updated_bodies_actions, <- created_bodies_actions.
  orchestrator_cases github elapse getCommentBody w;
    unfold read_request; destruct (CommentContext.id (context w));
    cbn; split; repeat (first [apply Forall_nil | apply Forall_cons]); cbn [snd]; auto.
Qed.

(** X5. Once the lock has returned a comment, [postOrUpdateComment]
    sends exactly one update, for that comment's id and with
    [updatedBody], and returns normally whatever the store answers to it
    and to the create that follows a rejection.  [context.id] is that
    comment's id at the end: the id of a comment created after a
    rejected update is not recorded. *)
Theorem postOrUpdateComment_after_lock {S : Type} (github : GitHubActionClient S)
    (elapse : N -> S -> S) (getCommentBody : option CommentData.t -> string)
    (w : World S) (c : CommentData.t) :
  settled (initiateCommentLock github elapse getCommentBody w) = Ok c ->
  let o := postOrUpdateComment github elapse getCommentBody w in
  settled o = Ok tt
  /\ CommentContext.id (context (world o)) = Some (CommentData.id c)
  /\ updated_bodies (events o)
     = [(CommentData.id c, updatedBody (context w) getCommentBody c)].
Proof.
  intros H. cbn zeta.
  destruct (postOrUpdateComment_lock_returns github elapse getCommentBody w c H)
    as (Hs & Hctx & Hupdate).
  rewrite Hs, Hctx. split; [reflexivity|]. split; [reflexivity|].
  rewrite <- updated_bodies_actions.
  assert (Hlock : updated_bodies
                    (actions (events (initiateCommentLock github elapse getCommentBody w)))
                  = []).
  { pose proof (initiateCommentLock_actions github elapse getCommentBody w) as Hl.
    cbn zeta in Hl. unfold read_request in Hl.
    destruct Hl as [(Hl & _) | [(Hl & _) | Hl]]; rewrite Hl;
      destruct (CommentContext.id (context w)); reflexivity. }
  unfold updated_bodies in *.
  destruct (fst (issues_updateComment _ _ _ _ _ _)) as [[]|e].
  - rewrite Hupdate, issues_calls_app, flat_map_app, Hlock. reflexivity.
  - destruct Hupdate as (Hupdate & _).
    rewrite Hupdate, issues_calls_app, flat_map_app, Hlock. reflexivity.
Qed.

(** X6. The footer rule is idempotent: a body that came out of it goes
    through it unchanged, so the footer does not pile up when a body
    producer hands back what was written before. *)
Theorem updatedBody_idempotent (ctx : CommentContext.t)
    (getCommentBody : option CommentData.t -> string) (c c' : CommentData.t) :
  updatedBody ctx (fun _ => updatedBody ctx getCommentBody c) c'
  = updatedBody ctx getCommentBody c.
Proof.
  unfold updatedBody at 1.
  destruct (Js.includes (updatedBody ctx getCommentBody c) (CommentContext.footer ctx)) eqn:H;
    [reflexivity|].
  unfold updatedBody in H.
  destruct (Js.includes (getCommentBody (Some c)) (CommentContext.footer ctx)) eqn:H';
    [congruence|].
  now rewrite includes_append_r in H.
Qed.

(** A rejected read returns [undefined]. *)
Lemma readComment_rejected {S : Type} (github : GitHubActionClient S) (w : World S)
    (e : Js.Error) :
  read_rejected github w e -> settled (readComment github w) = Ok None.
Proof.
  unfold read_rejected. intros H.
  destruct (CommentContext.id (context w)) as [id|] eqn:Hid.
  - destruct (issues_getComment _ _ _ _ _) as [r s'] eqn:Hget.
    cbn [fst] in H. subst r.
    now rewrite (readComment_by_id_throw github w id e s' Hid Hget).
  - destruct (issues_listComments _ _ _ _ _) as [r s'] eqn:Hlist.
    cbn [fst] in H. subst r.
    now rewrite (readComment_list_throw github w e s' Hid Hlist).
Qed.

(** X7. Read failures lead to a create.  When the store rejects both
    reads of [initiateCommentLock], the one before and the one after
    the wait, the lock asks for a new comment with the body
    [getInitialBody(null)], whether or not a comment exists and even
    when [context.id] was set, and settles as that create does. *)
Theorem initiateCommentLock_creates_after_rejected_reads {S : Type}
    (github : GitHubActionClient S) (elapse : N -> S -> S)
    (getInitialBody : option CommentData.t -> string) (w : World S) (e1 e2 : Js.Error) :
  read_rejected github w e1 ->
  read_rejected github (after_wait github elapse w) e2 ->
  let lock := initiateCommentLock github elapse getInitialBody w in
  created_bodies (events lock) = [getInitialBody None]
  /\ settled lock
     = fst (issues_createComment github (CommentContext.owner (context w))
              (CommentContext.repo (context w)) (CommentContext.issueNumber (context w))
              (getInitialBody None)
              (store (world (readComment github (after_wait github elapse w))))).
Proof.
  intros H1 H2. cbn zeta.
  apply readComment_rejected in H1. apply readComment_rejected in H2.
  destruct (initiateCommentLock_create github elapse getInitialBody w H1 H2) as (Ha & Hanswer).
  destruct (readComment_request github w) as (Ha1 & Hctx1 & _).
  destruct (readComment_request github (after_wait github elapse w)) as (Ha2 & _ & _).
  rewrite <- created_bodies_actions, Ha, Ha1, Ha2. split.
  - unfold read_request.
    destruct (CommentContext.id (context w));
      destruct (CommentContext.id (context (after_wait github elapse w))); reflexivity.
  - destruct (fst (issues_createComment _ _ _ _ _ _)); now destruct Hanswer.
Qed.

(** X8. A context that [createCommentContext] has just built makes the
    orchestrator list: every read of the run is a [listComments] of the
    action's repository and issue, never a [getComment].  For a job
    index whose hundredfold is a delay a timer takes as it is, a timer,
    if one is armed, is armed with that delay. *)
Theorem fresh_context_lists {S : Type} (github : GitHubActionClient S)
    (elapse : N -> S -> S) (action : GitHubActionContext) (workflowInfo : WorkflowRunInfo)
    (getCommentBody : option CommentData.t -> string) (s : S) :
  let w := mkWorld s (createCommentContext action workflowInfo) in
  let o := postOrUpdateComment github elapse getCommentBody w in
  Forall (eq (Issues.listComments (context_repo_owner action) (context_repo_repo action)
                (context_issue_number action)))
         (locates (events o))
  /\ ((jobIndex workflowInfo * 100 <= TIMEOUT_MAX)%N ->
      Forall (eq (jobIndex workflowInfo * 100)%N) (timeouts (events o))).
Proof.
  cbn zeta. rewrite <- locates_actions, <- timeouts_actions.
  orchestrator_cases github elapse getCommentBody
    (mkWorld s (createCommentContext action workflowInfo));
    cbn; split; try intros _; repeat constructor.
Qed.





(* ================================================================== *)
(** ** The footer and the pattern that looks for it *)

Lemma startsWith_append_l (s t p : string) :
  Js.startsWith s p = true -> Js.startsWith (s ++ t) p = true.
Proof.
  rewrite !startsWith_spec. intros [u ->]. exists (u ++ t). apply append_assoc.
Qed.

Lemma occurrences_includes (p s : string) :
  Js.includes s p = true -> 1 <= occurrences p s.
Proof.
  induction s as [|c s IH]; cbn [Js.includes occurrences].
  - rewrite orb_false_r. intros ->. lia.
  - destruct (Js.startsWith (String c s) p); [lia|].
    cbn [orb]. intros H. specialize (IH H). lia.
Qed.

Lemma occurrences_app (p s t : string) :
  p <> "" -> occurrences p s + occurrences p t <= occurrences p (s ++ t).
Proof.
  intros Hp. induction s as [|c s IH].
  - cbn [append]. destruct p; [contradiction | cbn; lia].
  - change (String c s ++ t) with (String c (s ++ t)). cbn [occurrences].
    destruct (Js.startsWith (String c s) p) eqn:H.
    + change (String c (s ++ t)) with (String c s ++ t).
      rewrite (startsWith_append_l _ t _ H). lia.
    + lia.
Qed.

Lemma append_nonempty_r (s t : string) : t <> "" -> s ++ t <> "".
Proof. destruct s; [trivial | discriminate]. Qed.

(** The pattern of [footerRe] is never empty. *)
Lemma footer_pattern_nonempty (workflowInfo : WorkflowRunInfo) :
  Js.trim (footer_of workflowInfo) <> "".
Proof.
  unfold footer_of, Js.trim.
  set (rest := Js.dquote ++ _).
  change (Js.trimStart (Js.newline ++ Js.newline ++ "<sub><a href=" ++ rest))
    with ("<sub><a href=" ++ rest).
  subst rest. rewrite <- !append_assoc.
  rewrite trimEnd_append by discriminate.
  apply append_nonempty_r. discriminate.
Qed.

(** X10. The two footer tests differ.  [postOrUpdateComment] looks for
    [context.footer], line breaks included, while [footerRe] looks for
    the trimmed footer.  So a computed body in which the pattern occurs
    but not behind two line breaks is taken as lacking the footer: the
    footer is appended, and the text written holds the pattern at least
    twice. *)
Theorem updatedBody_repeats_pattern (action : GitHubActionContext)
    (workflowInfo : WorkflowRunInfo) (getCommentBody : option CommentData.t -> string)
    (c : CommentData.t) :
  let ctx := createCommentContext action workflowInfo in
  Js.test (CommentContext.footerRe ctx) (getCommentBody (Some c)) = true ->
  Js.includes (getCommentBody (Some c)) (CommentContext.footer ctx) = false ->
  updatedBody ctx getCommentBody c = getCommentBody (Some c) ++ CommentContext.footer ctx
  /\ 2 <= occurrences (Js.source (CommentContext.footerRe ctx))
                      (updatedBody ctx getCommentBody c).
Proof.
  cbn zeta. intros Hpattern Hfooter.
  assert (Hbody : updatedBody (createCommentContext action workflowInfo) getCommentBody c
                  = getCommentBody (Some c)
                    ++ CommentContext.footer (createCommentContext action workflowInfo))
    by (unfold updatedBody; now rewrite Hfooter).
  split; [exact Hbody|]. rewrite Hbody.
  cbn [createCommentContext CommentContext.footer CommentContext.footerRe Js.source] in *.
  unfold Js.test in Hpattern. cbn [Js.source] in Hpattern.
  pose proof (occurrences_includes _ _ Hpattern) as H1.
  pose proof (occurrences_includes _ _ (includes_trim (footer_of workflowInfo))) as H2.
  pose proof (occurrences_app (Js.trim (footer_of workflowInfo)) (getCommentBody (Some c))
                (footer_of workflowInfo) (footer_pattern_nonempty workflowInfo)) as H.
  lia.
Qed.

(* ================================================================== *)
(** ** The report of [index.js] *)

Lemma existsb_eqb_In (x : string) (l : list string) :
  existsb (String.eqb x) l = true <-> In x l.
Proof.
  rewrite existsb_exists. split.
  - intros [y [Hy Heq]]. apply String.eqb_eq in Heq. now subst.
  - intros H. exists x. split; [exact H | apply String.eqb_refl].
Qed.

Lemma Set_of_In (seen array : list string) (x : string) :
  In x (JsArray.Set_of seen array) <-> In x seen \/ In x array.
Proof.
  revert seen. induction array as [|y array IH]; intros seen; cbn [JsArray.Set_of].
  - cbn. tauto.
  - rewrite IH. destruct (existsb (String.eqb y) seen) eqn:Hy.
    + apply existsb_eqb_In in Hy. cbn. split; [tauto|].
      intros [H | [-> | H]]; auto.
    + rewrite in_app_iff. cbn. tauto.
Qed.

Lemma Set_of_NoDup (seen array : list string) :
  NoDup seen -> NoDup (JsArray.Set_of seen array).
Proof.
  revert seen. induction array as [|y array IH]; intros seen Hseen; cbn [JsArray.Set_of].
  - exact Hseen.
  - apply IH. destruct (existsb (String.eqb y) seen) eqn:Hy; [exact Hseen|].
    apply NoDup_app; [exact Hseen | repeat constructor; intros [] |].
    intros x Hx [<- | []].
    apply existsb_eqb_In in Hx. congruence.
Qed.

Lemma Set_of_distinct (seen array : list string) :
  NoDup (seen ++ array) -> JsArray.Set_of seen array = (seen ++ array)%list.
Proof.
  revert seen. induction array as [|y array IH]; intros seen H; cbn [JsArray.Set_of].
  - now rewrite app_nil_r.
  - destruct (existsb (String.eqb y) seen) eqn:Hy.
    + apply existsb_eqb_In in Hy. apply NoDup_remove_2 in H.
      exfalso. apply H. apply in_or_app. now left.
    + rewrite IH by (now rewrite <- app_assoc). now rewrite <- app_assoc.
Qed.

Lemma filter_twice {A} (f g : A -> bool) (l : list A) :
  filter f (filter g l) = filter (fun x => g x && f x) l.
Proof.
  induction l as [|x l IH]; [reflexivity|].
  cbn. destruct (g x); cbn; [destruct (f x)|]; now rewrite IH.
Qed.

Lemma filter_length_le {A} (f : A -> bool) (l : list A) : length (filter f l) <= length l.
Proof.
  induction l as [|x l IH]; [reflexivity|]. cbn. destruct (f x); cbn; lia.
Qed.

(** What is in the set already can be taken out of the array first. *)
Lemma Set_of_filter (n : nat) (seen array : list string) :
  length array <= n ->
  JsArray.Set_of seen array
  = (seen ++ JsArray.Set_of []
               (filter (fun y => negb (existsb (String.eqb y) seen)) array))%list.
Proof.
  revert seen array. induction n as [|n IH]; intros seen [|x array] Hn;
    cbn [length] in Hn; try lia; cbn [JsArray.Set_of filter].
  - now rewrite app_nil_r.
  - now rewrite app_nil_r.
  - destruct (existsb (String.eqb x) seen) eqn:Hx; cbn [negb].
    + apply IH. lia.
    + cbn [JsArray.Set_of existsb app].
      rewrite (IH (seen ++ [x])%list array) by lia.
      rewrite (IH [x] (filter _ array))
        by (pose proof (filter_length_le
                          (fun y => negb (existsb (String.eqb y) seen)) array); lia).
      rewrite filter_twice, <- app_assoc.
      rewrite (filter_ext (fun y => negb (existsb (String.eqb y) (seen ++ [x])))
                 (fun y => negb (existsb (String.eqb y) seen)
                           && negb (existsb (String.eqb y) [x])))
        by (intros y; now rewrite existsb_app, negb_orb).
      reflexivity.
Qed.

Lemma unique_cons (x : string) (array : list string) :
  JsArray.unique (x :: array)
  = x :: JsArray.unique (filter (fun y => negb (String.eqb y x)) array).
Proof.
  unfold JsArray.unique. cbn [JsArray.Set_of existsb app].
  rewrite (Set_of_filter (length array) [x] array) by lia.
  cbn [app].
  rewrite (filter_ext (fun y => negb (existsb (String.eqb y) [x]))
             (fun y => negb (String.eqb y x)))
    by (intros y; cbn; now rewrite orb_false_r).
  reflexivity.
Qed.

(** [Array.from(new Set(array))] keeps the order of first appearance. *)
Lemma unique_first_appearances (array : list string) :
  FirstAppearances array (JsArray.unique array).
Proof.
  remember (length array) as n eqn:Hn.
  assert (Hle : length array <= n) by lia. clear Hn.
  revert array Hle. induction n as [|n IH]; intros [|x array] Hle;
    cbn [length] in Hle; try lia.
  - constructor.
  - constructor.
  - rewrite unique_cons. constructor. apply IH.
    pose proof (filter_length_le (fun y => negb (String.eqb y x)) array). lia.
Qed.

Lemma includes_char (a c : ascii) (s : string) :
  Js.includes (String a s) (String c "") = Ascii.eqb c a || Js.includes s (String c "").
Proof.
  cbn [Js.includes Js.startsWith]. destruct s; now rewrite andb_true_r.
Qed.

Lemma replace_char_removes (c d : ascii) (s : string) :
  c <> d -> Js.includes (JsArray.replace_char c d s) (String c "") = false.
Proof.
  intros Hcd. induction s as [|a s IH]; [reflexivity|].
  cbn [JsArray.replace_char]. rewrite includes_char, IH, orb_false_r.
  destruct (Ascii.eqb a c) eqn:Ha.
  - now apply Ascii.eqb_neq.
  - apply Ascii.eqb_neq. apply Ascii.eqb_neq in Ha. congruence.
Qed.

Lemma replace_char_keeps_out (c d x : ascii) (s : string) :
  d <> x -> Js.includes s (String x "") = false ->
  Js.includes (JsArray.replace_char c d s) (String x "") = false.
Proof.
  intros Hd. induction s as [|a s IH]; [reflexivity|].
  cbn [JsArray.replace_char]. rewrite !includes_char.
  intros H. apply orb_false_iff in H. destruct H as (Ha & Hs).
  rewrite (IH Hs), orb_false_r.
  destruct (Ascii.eqb a c); [|exact Ha].
  apply Ascii.eqb_neq. congruence.
Qed.

Lemma strip_trailing_keeps_out (c x : ascii) (s : string) :
  Js.includes s (String x "") = false ->
  Js.includes (JsArray.strip_trailing c s) (String x "") = false.
Proof.
  induction s as [|a s IH]; [reflexivity|].
  rewrite includes_char. intros H. apply orb_false_iff in H. destruct H as (Ha & Hs).
  specialize (IH Hs). cbn [JsArray.strip_trailing].
  destruct (JsArray.strip_trailing c s) as [|b t].
  - destruct (Ascii.eqb a c); [reflexivity|].
    now rewrite includes_char, Ha.
  - now rewrite includes_char, Ha, IH.
Qed.

Lemma strip_trailing_end (c : ascii) (s : string) :
  JsArray.endsWith_char (JsArray.strip_trailing c s) c = false.
Proof.
  induction s as [|a s IH]; [reflexivity|].
  cbn [JsArray.strip_trailing].
  destruct (JsArray.strip_trailing c s) as [|b t] eqn:E.
  - destruct (Ascii.eqb a c) eqn:Ha; [reflexivity | exact Ha].
  - exact IH.
Qed.

Section IndexFacts.

Context {S : Type}.
Variable sha1_base64 : string -> string.
Variable Html : Type.
Variable CommitInfo : Type.
Variable Status : WorkflowRunInfo -> bool -> Html.
Variable ResultsEntry :
  string -> option (list BenchmarkResult.t) -> WorkflowRunInfo -> CommitInfo -> Html.
Variable Summary :
  string -> string -> option (list BenchmarkResult.t) -> Property string ->
  Property string -> WorkflowRunInfo -> bool -> Html.
Variable toString : Html -> string.
Variable getCommentBody : Inputs.t -> Report Html -> option string -> string.
Variable getRunAndCommit : GitHubActionContext -> M S (WorkflowRunInfo * CommitInfo).
Variable readResultsRunAndCommit :
  Property string -> GitHubActionContext ->
  M S (option TachResults * WorkflowRunInfo * CommitInfo).
Variable github : GitHubActionClient S.
Variable elapse : N -> S -> S.

(** X11. Whatever the digest is, a report id that [getReportId] makes
    holds no [+] and no [/] and does not end with [=]. *)
Theorem getReportId_safe (benchmarks : list BenchmarkResult.t) :
  Js.includes (getReportId sha1_base64 benchmarks) "+" = false
  /\ Js.includes (getReportId sha1_base64 benchmarks) "/" = false
  /\ JsArray.endsWith_char (getReportId sha1_base64 benchmarks) "=" = false.
Proof.
  unfold getReportId. cbn zeta. repeat split.
  - apply strip_trailing_keeps_out. apply replace_char_keeps_out; [discriminate|].
    apply replace_char_removes. discriminate.
  - apply strip_trailing_keeps_out. apply replace_char_removes. discriminate.
  - apply strip_trailing_end.
Qed.

(** X12. Without a report id in the inputs, [buildReport] on results
    that hold benchmarks, even none at all, does not throw: the id
    is [getReportId] of them and the title joins the benchmark names
    with a comma and a space, each name once, in the order in which
    the names first appear ([FirstAppearances]). *)
Theorem buildReport_title (commitInfo : CommitInfo) (workflowRun : WorkflowRunInfo)
    (inputs : Inputs.t) (results : list BenchmarkResult.t) (isRunning : bool) :
  truthy (Inputs.reportId inputs) = None ->
  exists report names,
    buildReport sha1_base64 Html CommitInfo Status ResultsEntry Summary commitInfo
      workflowRun inputs (Some {| benchmarks := Some results |}) isRunning
    = Ok report
    /\ report_id Html report = getReportId sha1_base64 results
    /\ report_title Html report = JsArray.join ", " names
    /\ FirstAppearances (map BenchmarkResult.name results) names
    /\ NoDup names
    /\ (forall name, In name names <-> In name (map BenchmarkResult.name results))
    /\ (NoDup (map BenchmarkResult.name results) ->
        names = map BenchmarkResult.name results).
Proof.
  intros Hid. unfold buildReport. cbn zeta. rewrite Hid. cbn [benchmarks].
  eexists. exists (JsArray.unique (map BenchmarkResult.name results)).
  split; [reflexivity|]. cbn [report_id report_title].
  repeat split.
  - apply unique_first_appearances.
  - apply Set_of_NoDup. constructor.
  - intros H. apply Set_of_In in H. destruct H as [[]|H]. exact H.
  - intros H. apply Set_of_In. now right.
  - intros H. unfold JsArray.unique. now rewrite Set_of_distinct.
Qed.

(** X13. [reportTachRunning] needs a report id.  It builds its report
    without results, so when [inputs.reportId] is missing, [undefined],
    [null] or the empty string, the call throws once the run and commit
    are fetched; it has then done nothing but that fetch, and no
    comment is read, created or updated.  A rejected fetch is thrown on
    as it is. *)
Theorem reportTachRunning_needs_report_id (context : GitHubActionContext)
    (inputs : Inputs.t) (w : World S) :
  truthy (Inputs.reportId inputs) = None ->
  let fetched := getRunAndCommit context w in
  let o := reportTachRunning sha1_base64 Html CommitInfo Status ResultsEntry Summary
             toString getCommentBody getRunAndCommit github elapse context inputs w in
  events o = events fetched
  /\ world o = world fetched
  /\ match settled fetched with
     | Ok _ =>
         settled o
         = Throw (Js.mkError "Error"
                    "Could not determine ID for report. 'report-id' option was not provided and there are no benchmark results")
     | Throw e => settled o = Throw e
     end.
Proof.
  intros Hid. cbn zeta. unfold reportTachRunning, settle, buildReport. run_async.
  rewrite Hid.
  destruct (getRunAndCommit context w) as [[[workflowRun commitInfo]|e] w1 e1];
    cbn [settled world events]; repeat split.
  apply app_nil_r.
Qed.

Lemma truthy_with_defaults (inputs : Inputs.t) :
  truthy (Inputs.reportId (with_defaults inputs)) = truthy (Inputs.reportId inputs).
Proof.
  unfold with_defaults. cbn [Inputs.reportId defaultInputs].
  now destruct (Inputs.reportId inputs).
Qed.

(** X14. [reportTachResults] without a report id and with a results file
    that holds no benchmarks throws once the file, the run and the
    commit are fetched, and no comment is read, created or updated:
    the [null] that [defaultInputs] puts in for a missing [reportId]
    counts as no id. *)
Theorem reportTachResults_needs_id_or_benchmarks (context : GitHubActionContext)
    (inputs : Inputs.t) (w : World S) (tachResults : option TachResults)
    (workflowRun : WorkflowRunInfo) (commitInfo : CommitInfo) :
  truthy (Inputs.reportId inputs) = None ->
  let fetched :=
    readResultsRunAndCommit (Inputs.path (with_defaults inputs)) context w in
  settled fetched = Ok (tachResults, workflowRun, commitInfo) ->
  match tachResults with Some results => benchmarks results | None => None end = None ->
  let o := reportTachResults sha1_base64 Html CommitInfo Status ResultsEntry Summary
             toString getCommentBody readResultsRunAndCommit github elapse context inputs w in
  events o = events fetched
  /\ world o = world fetched
  /\ settled o
     = Throw (Js.mkError "Error"
                "Could not determine ID for report. 'report-id' option was not provided and there are no benchmark results").
Proof.
  intros Hid. cbn zeta. intros Hfetched Hnone.
  unfold reportTachResults, settle, buildReport. run_async.
  rewrite truthy_with_defaults, Hid.
  destruct (readResultsRunAndCommit _ context w) as [r w1 e1].
  cbn [settled world events] in *. subst r. cbn [settled world events].
  rewrite Hnone. cbn [settled world events]. repeat split. apply app_nil_r.
Qed.

(** Posting is the orchestrator on a context of its own, built for
    the occasion: its [id] is [null]. *)
Lemma post_outcome (context : GitHubActionContext) (workflowRun : WorkflowRunInfo)
    (inputs : Inputs.t) (report : Report Html) (w : World S) :
  post Html getCommentBody github elapse context workflowRun inputs report w
  = postOrUpdateComment github elapse
      (fun comment => getCommentBody inputs report (option_map CommentData.body comment))
      (mkWorld (store w) (createCommentContext context workflowRun)).
Proof.
  unfold post, with_new_context. run_async.
  now destruct (postOrUpdateComment _ _ _ _) as [[[]|e] w' evs].
Qed.

(** The requests of a [postOrUpdateComment] run start with a read. *)
Lemma postOrUpdateComment_reads_first (getBody : option CommentData.t -> string)
    (w : World S) :
  exists rest,
    actions (events (postOrUpdateComment github elapse getBody w))
    = IssuesCall (read_request (context w)) :: rest.
Proof.
  orchestrator_cases github elapse getBody w; cbn [app]; eexists; reflexivity.
Qed.

(** X15. When file, run and commit are fetched and the report can be
    built, [reportTachResults] runs the orchestrator on a context it
    has just built, with the inputs completed by the defaults: the
    first request of that run is a listing of the comments of the
    action's issue.  The call returns the serialized report exactly
    when the orchestrator returns, and throws what the orchestrator
    throws. *)
Theorem reportTachResults_posts (action : GitHubActionContext) (inputs : Inputs.t)
    (w : World S) (tachResults : option TachResults) (workflowRun : WorkflowRunInfo)
    (commitInfo : CommitInfo) (report : Report Html) :
  let fetched :=
    readResultsRunAndCommit (Inputs.path (with_defaults inputs)) action w in
  settled fetched = Ok (tachResults, workflowRun, commitInfo) ->
  buildReport sha1_base64 Html CommitInfo Status ResultsEntry Summary commitInfo
    workflowRun (with_defaults inputs) tachResults false = Ok report ->
  let posted :=
    postOrUpdateComment github elapse
      (fun comment =>
         getCommentBody (with_defaults inputs) report
           (option_map CommentData.body comment))
      (mkWorld (store (world fetched)) (createCommentContext action workflowRun)) in
  let o := reportTachResults sha1_base64 Html CommitInfo Status ResultsEntry Summary
             toString getCommentBody readResultsRunAndCommit github elapse action inputs w in
  events o = (events fetched ++ events posted)%list
  /\ (exists rest,
        actions (events posted)
        = IssuesCall (Issues.listComments (context_repo_owner action)
                        (context_repo_repo action) (context_issue_number action))
          :: rest)
  /\ settled o = match settled posted with
                 | Ok _ => Ok (serialize Html toString report)
                 | Throw e => Throw e
                 end.
Proof.
  cbn zeta. intros Hfetched Hreport.
  split; [|split].
  - unfold reportTachResults, settle. run_async.
    destruct (readResultsRunAndCommit _ action w) as [r w1 e1].
    cbn [settled world events] in *. subst r. cbn [settled world events].
    rewrite Hreport, post_outcome. cbn [store].
    destruct (postOrUpdateComment _ _ _ _) as [[[]|e] w2 e2];
      cbn [events app]; now rewrite ?app_nil_r.
  - apply postOrUpdateComment_reads_first.
  - unfold reportTachResults, settle. run_async.
    destruct (readResultsRunAndCommit _ action w) as [r w1 e1].
    cbn [settled world events] in *. subst r. cbn [settled world events].
    rewrite Hreport, post_outcome. cbn [store].
    now destruct (postOrUpdateComment _ _ _ _) as [[[]|e] w2 e2].
Qed.

(** X16. With a report id in the inputs and the run and commit
    fetched, [reportTachRunning] builds a running report whose id and
    title are both that id and which has a status, and runs the
    orchestrator on a context it has just built, with the inputs as
    they were given.  The call returns the serialized report exactly
    when the orchestrator returns, and throws what the orchestrator
    throws. *)
Theorem reportTachRunning_posts (action : GitHubActionContext) (inputs : Inputs.t)
    (w : World S) (reportId : string) (workflowRun : WorkflowRunInfo)
    (commitInfo : CommitInfo) :
  truthy (Inputs.reportId inputs) = Some reportId ->
  let fetched := getRunAndCommit action w in
  settled fetched = Ok (workflowRun, commitInfo) ->
  exists report,
    let posted :=
      postOrUpdateComment github elapse
        (fun comment => getCommentBody inputs report (option_map CommentData.body comment))
        (mkWorld (store (world fetched)) (createCommentContext action workflowRun)) in
    let o := reportTachRunning sha1_base64 Html CommitInfo Status ResultsEntry Summary
               toString getCommentBody getRunAndCommit github elapse action inputs w in
    report_id Html report = reportId
    /\ report_title Html report = reportId
    /\ report_isRunning Html report = true
    /\ report_status Html report = Some (Status workflowRun true)
    /\ events o = (events fetched ++ events posted)%list
    /\ settled o = match settled posted with
                   | Ok _ => Ok (serialize Html toString report)
                   | Throw e => Throw e
                   end.
Proof.
  intros Hid. cbn zeta. intros Hfetched.
  destruct (buildReport sha1_base64 Html CommitInfo Status ResultsEntry Summary commitInfo
              workflowRun inputs None true) as [report|e] eqn:Hreport;
    unfold buildReport in Hreport; cbn zeta in Hreport; rewrite Hid in Hreport;
    [|discriminate].
  injection Hreport as Hreport.
  exists report. rewrite <- Hreport at 1 2 3 4. cbn [report_id report_title report_isRunning report_status].
  repeat (split; [reflexivity|]).
  assert (Hbuilt : buildReport sha1_base64 Html CommitInfo Status ResultsEntry Summary
                     commitInfo workflowRun inputs None true = Ok report)
    by (unfold buildReport; cbn zeta; rewrite Hid; now rewrite Hreport).
  unfold reportTachRunning, settle. run_async.
  destruct (getRunAndCommit action w) as [r w1 e1].
  cbn [settled world events] in *. subst r. cbn [settled world events].
  rewrite Hbuilt, post_outcome. cbn [store].
  destruct (postOrUpdateComment _ _ _ _) as [[[]|e] w2 e2];
    cbn [settled events app]; now rewrite ?app_nil_r.
Qed.

End IndexFacts.

(* ================================================================== *)
(** ** The element ids of [tests/utils.js] *)

Lemma append_cancel_l (p s t : string) : p ++ s = p ++ t -> s = t.
Proof.
  induction p as [|a p IH]; cbn; [trivial|].
  intros H. injection H as H. now apply IH.
Qed.

Lemma id_or_empty_Some (s : string) : id_or_empty (Some s) = s.
Proof.
  cbn. destruct (String.eqb s "") eqn:H; [|reflexivity].
  apply String.eqb_eq in H. now subst.
Qed.

(** X17. The ids never collide across kinds: for all arguments, the id
    of a benchmark section, the id of a summary, the id of the summary
    list and the id of the results container are four different
    strings.  Within a kind, two string arguments give the same id only
    when they are the same string. *)
Theorem element_ids_distinct (a b : option string) (s t : string) :
  getBenchmarkSectionId a <> getSummaryId b
  /\ getBenchmarkSectionId a <> getSummaryListId
  /\ getBenchmarkSectionId a <> getResultsContainerId
  /\ getSummaryId a <> getSummaryListId
  /\ getSummaryId a <> getResultsContainerId
  /\ getSummaryListId <> getResultsContainerId
  /\ (getBenchmarkSectionId (Some s) = getBenchmarkSectionId (Some t) -> s = t)
  /\ (getSummaryId (Some s) = getSummaryId (Some t) -> s = t).
Proof.
  unfold getBenchmarkSectionId, getSummaryId, getSummaryListId, getResultsContainerId.
  repeat split; try (cbn; discriminate).
  - intros H. apply append_cancel_l in H. now rewrite !id_or_empty_Some in H.
  - intros H. apply append_cancel_l in H. now rewrite !id_or_empty_Some in H.
Qed.

(* ================================================================== *)
(** ** The further theorems at concrete runs *)

Lemma postOrUpdateComment_after_lock_witness :
  let w := Scenario.start Scenario.update_rejected Scenario.ctx in
  let o := postOrUpdateComment Script.github Script.elapse Scenario.report_with_footer w in
  settled o = Ok tt
  /\ CommentContext.id (context (world o)) = Some 7%positive
  /\ created_bodies (events o)
     = ["report" ++ CommentContext.footer Scenario.ctx ++ CommentContext.footer Scenario.ctx].
Proof.
  cbn zeta.
  destruct (postOrUpdateComment_after_lock Script.github Script.elapse
              Scenario.report_with_footer
              (Scenario.start Scenario.update_rejected Scenario.ctx)
              (Scenario.bot 7 ("old" ++ CommentContext.footer Scenario.ctx)))
    as (Hs & Hid & _); [vm_compute; reflexivity|].
  split; [exact Hs|]. split; [exact Hid|]. vm_compute. reflexivity.
Defined.

Lemma initiateCommentLock_creates_after_rejected_reads_witness :
  let w := Scenario.start
             [Script.fails Scenario.serverError; Script.fails Scenario.serverError;
              Script.comment (Scenario.bot 9 "report")]
             (CommentContext.set_id (Some 7%positive) Scenario.ctx) in
  let lock := initiateCommentLock Script.github Script.elapse Scenario.report w in
  created_bodies (events lock) = ["report"]
  /\ settled lock = Ok (Scenario.bot 9 "report").
Proof.
  cbn zeta.
  apply (initiateCommentLock_creates_after_rejected_reads Script.github Script.elapse
           Scenario.report
           (Scenario.start
              [Script.fails Scenario.serverError; Script.fails Scenario.serverError;
               Script.comment (Scenario.bot 9 "report")]
              (CommentContext.set_id (Some 7%positive) Scenario.ctx))
           Scenario.serverError Scenario.serverError); reflexivity.
Defined.

Lemma updatedBody_repeats_pattern_witness :
  let pattern := Js.source (CommentContext.footerRe Scenario.ctx) in
  let inline := fun _ : option CommentData.t => "report " ++ pattern in
  Js.includes (inline None) (CommentContext.footer Scenario.ctx) = false
  /\ 2 <= occurrences pattern
            (updatedBody Scenario.ctx inline (Scenario.bot 7 "old")).
Proof.
  cbn zeta. split; [vm_compute; reflexivity|].
  apply (updatedBody_repeats_pattern Scenario.actionContext Scenario.workflowInfo
           (fun _ => "report " ++ Js.source (CommentContext.footerRe Scenario.ctx))
           (Scenario.bot 7 "old")); vm_compute; reflexivity.
Defined.

Lemma buildReport_title_witness :
  exists report,
    buildReport IndexScenario.digest string unit IndexScenario.Status
      IndexScenario.ResultsEntry IndexScenario.Summary tt Scenario.workflowInfo
      IndexScenario.only_path (Some {| benchmarks := Some IndexScenario.results |}) false
    = Ok report
    /\ report_id string report = "Kq-8_xY-_w"
    /\ report_title string report = "render, update".
Proof.
  destruct (buildReport_title IndexScenario.digest string unit IndexScenario.Status
              IndexScenario.ResultsEntry IndexScenario.Summary tt Scenario.workflowInfo
              IndexScenario.only_path IndexScenario.results false eq_refl)
    as (report & names & Hreport & Hid & _).
  exists report. split; [exact Hreport|].
  vm_compute in Hreport. injection Hreport as <-. split; reflexivity.
Defined.

Lemma reportTachRunning_needs_report_id_witness :
  let w := Scenario.start Scenario.create_accepted Scenario.ctx in
  let o := reportTachRunning IndexScenario.digest string unit IndexScenario.Status
             IndexScenario.ResultsEntry IndexScenario.Summary IndexScenario.toString
             IndexScenario.getCommentBody IndexScenario.getRunAndCommit
             Script.github Script.elapse Scenario.actionContext IndexScenario.only_path w in
  events o = [] /\ store (world o) = Scenario.create_accepted.
Proof.
  cbn zeta.
  destruct (reportTachRunning_needs_report_id IndexScenario.digest string unit
              IndexScenario.Status IndexScenario.ResultsEntry IndexScenario.Summary
              IndexScenario.toString IndexScenario.getCommentBody
              IndexScenario.getRunAndCommit Script.github Script.elapse
              Scenario.actionContext IndexScenario.only_path
              (Scenario.start Scenario.create_accepted Scenario.ctx) eq_refl)
    as (He & Hw & _).
  split; [exact He | now rewrite Hw].
Defined.

Lemma reportTachResults_needs_id_or_benchmarks_witness :
  let w := Scenario.start Scenario.create_accepted Scenario.ctx in
  let o := reportTachResults IndexScenario.digest string unit IndexScenario.Status
             IndexScenario.ResultsEntry IndexScenario.Summary IndexScenario.toString
             IndexScenario.getCommentBody
             (IndexScenario.readResultsRunAndCommit (Some {| benchmarks := None |}))
             Script.github Script.elapse Scenario.actionContext IndexScenario.only_path w in
  events o = [] /\ store (world o) = Scenario.create_accepted.
Proof.
  cbn zeta.
  destruct (reportTachResults_needs_id_or_benchmarks IndexScenario.digest string unit
              IndexScenario.Status IndexScenario.ResultsEntry IndexScenario.Summary
              IndexScenario.toString IndexScenario.getCommentBody
              (IndexScenario.readResultsRunAndCommit (Some {| benchmarks := None |}))
              Script.github Script.elapse Scenario.actionContext IndexScenario.only_path
              (Scenario.start Scenario.create_accepted Scenario.ctx)
              (Some {| benchmarks := None |}) Scenario.workflowInfo tt
              eq_refl eq_refl eq_refl)
    as (He & Hw & _).
  split; [exact He | now rewrite Hw].
Defined.

Lemma reportTachResults_posts_witness :
  let w := Scenario.start Scenario.create_rejected Scenario.ctx in
  let o := reportTachResults IndexScenario.digest string unit IndexScenario.Status
             IndexScenario.ResultsEntry IndexScenario.Summary IndexScenario.toString
             IndexScenario.getCommentBody
             (IndexScenario.readResultsRunAndCommit
                (Some {| benchmarks := Some IndexScenario.results |}))
             Script.github Script.elapse Scenario.actionContext IndexScenario.only_path w in
  settled o = Throw Scenario.serverError.
Proof.
  cbn zeta.
  destruct (buildReport IndexScenario.digest string unit IndexScenario.Status
              IndexScenario.ResultsEntry IndexScenario.Summary tt Scenario.workflowInfo
              (with_defaults IndexScenario.only_path)
              (Some {| benchmarks := Some IndexScenario.results |}) false)
    as [report|e] eqn:Hreport; [|vm_compute in Hreport; discriminate].
  destruct (reportTachResults_posts IndexScenario.digest string unit IndexScenario.Status
              IndexScenario.ResultsEntry IndexScenario.Summary IndexScenario.toString
              IndexScenario.getCommentBody
              (IndexScenario.readResultsRunAndCommit
                 (Some {| benchmarks := Some IndexScenario.results |}))
              Script.github Script.elapse Scenario.actionContext IndexScenario.only_path
              (Scenario.start Scenario.create_rejected Scenario.ctx)
              (Some {| benchmarks := Some IndexScenario.results |}) Scenario.workflowInfo tt
              report eq_refl Hreport)
    as (_ & _ & Hs).
  rewrite Hs. vm_compute in Hreport. injection Hreport as <-.
  vm_compute. reflexivity.
Defined.

Lemma reportTachRunning_posts_witness :
  let w := Scenario.start (Scenario.create_accepted ++ [Script.done]) Scenario.ctx in
  let o := reportTachRunning IndexScenario.digest string unit IndexScenario.Status
             IndexScenario.ResultsEntry IndexScenario.Summary IndexScenario.toString
             IndexScenario.getCommentBody IndexScenario.getRunAndCommit
             Script.github Script.elapse Scenario.actionContext IndexScenario.named w in
  created_bodies (events o) = ["results of my-report"]
  /\ exists serialized,
       settled o = Ok serialized
       /\ serialized_id serialized = "my-report"
       /\ serialized_status serialized = Some "status".
Proof.
  cbn zeta.
  destruct (reportTachRunning_posts IndexScenario.digest string unit IndexScenario.Status
              IndexScenario.ResultsEntry IndexScenario.Summary IndexScenario.toString
              IndexScenario.getCommentBody IndexScenario.getRunAndCommit
              Script.github Script.elapse Scenario.actionContext IndexScenario.named
              (Scenario.start (Scenario.create_accepted ++ [Script.done]) Scenario.ctx)
              "my-report" Scenario.workflowInfo tt eq_refl eq_refl)
    as (report & _ & _ & _ & _ & _ & Hs).
  split; [vm_compute; reflexivity|].
  eexists. split; [vm_compute; reflexivity|]. split; vm_compute; reflexivity.
Defined.

(* ================================================================== *)
(** ** Running the orchestrator twice *)

(** [postOrUpdateComment] when the lock returned [c] and the store
    accepts the update: the world it leaves. *)
Lemma postOrUpdateComment_update_accepted {S : Type} (github : GitHubActionClient S)
    (elapse : N -> S -> S) (getCommentBody : option CommentData.t -> string)
    (w : World S) (c : CommentData.t) (s' : S) :
  settled (initiateCommentLock github elapse getCommentBody w) = Ok c ->
  issues_updateComment github (CommentContext.owner (context w))
    (CommentContext.repo (context w)) (CommentData.id c)
    (updatedBody (context w) getCommentBody c)
    (store (world (initiateCommentLock github elapse getCommentBody w))) = (Ok tt, s') ->
  world (postOrUpdateComment github elapse getCommentBody w)
  = mkWorld s' (CommentContext.set_id (Some (CommentData.id c)) (context w))
  /\ actions (events (postOrUpdateComment github elapse getCommentBody w))
     = (actions (events (initiateCommentLock github elapse getCommentBody w))
        ++ [IssuesCall (Issues.updateComment (CommentContext.owner (context w))
                          (CommentContext.repo (context w)) (CommentData.id c)
                          (updatedBody (context w) getCommentBody c))])%list.
Proof.
  intros H Hupdate.
  pose proof (initiateCommentLock_context github elapse getCommentBody w) as Hctx.
  rewrite H in Hctx.
  unfold postOrUpdateComment, acquireCommentLock. run_async.
  destruct (initiateCommentLock github elapse getCommentBody w) as [r w1 e1].
  cbn [settled world events] in *. subst r. run_async.
  unfold updateComment. run_async. rewrite Hctx.
  cbn [CommentContext.set_id CommentContext.id CommentContext.owner
       CommentContext.repo CommentContext.footer CommentContext.issueNumber].
  run_async.
  replace (if negb (Js.includes (getCommentBody (Some c)) (CommentContext.footer (context w)))
           then getCommentBody (Some c) ++ CommentContext.footer (context w)
           else getCommentBody (Some c))
    with (updatedBody (context w) getCommentBody c)
    by (unfold updatedBody; now destruct (Js.includes _ _)).
  rewrite Hupdate. run_async. split; [reflexivity | now norm_actions].
Qed.

(** A comment of a "Bot" whose body came out of the footer rule
    satisfies [matches]. *)
Lemma matches_updatedBody (action : GitHubActionContext) (workflowInfo : WorkflowRunInfo)
    (getCommentBody : option CommentData.t -> string) (c : CommentData.t) (id : positive) :
  let ctx := createCommentContext action workflowInfo in
  CommentContext.matches ctx
    (CommentData.mk id (updatedBody ctx getCommentBody c) (CommentData.mkUser "Bot"))
  = true.
Proof.
  cbn zeta. cbn [createCommentContext CommentContext.matches CommentData.user
                 CommentData.type CommentData.body].
  cbn [String.eqb Ascii.eqb Bool.eqb andb]. unfold Js.test. cbn [Js.source].
  apply includes_trans with (t := footer_of workflowInfo).
  - apply (updatedBody_footer (createCommentContext action workflowInfo)).
  - apply includes_trim.
Qed.

(** X18. Two runs in a row against a store that keeps what it is given.
    On an issue without comments, the first [postOrUpdateComment] of a
    freshly built context creates one comment and then writes the
    footed body over it; the second, with a context built anew, lists,
    finds that comment, creates nothing and updates it.  Both return,
    and the store holds exactly one comment at the end. *)
Theorem postOrUpdateComment_twice (action : GitHubActionContext)
    (workflowInfo : WorkflowRunInfo) (getCommentBody : option CommentData.t -> string) :
  let ctx := createCommentContext action workflowInfo in
  let first :=
    postOrUpdateComment MemoryStore.github MemoryStore.elapse getCommentBody
      (mkWorld [] ctx) in
  let second :=
    postOrUpdateComment MemoryStore.github MemoryStore.elapse getCommentBody
      (mkWorld (store (world first)) ctx) in
  let created := CommentData.mk 1 (getCommentBody None) (CommentData.mkUser "Bot") in
  let kept :=
    CommentData.mk 1 (updatedBody ctx getCommentBody created) (CommentData.mkUser "Bot") in
  settled first = Ok tt
  /\ created_bodies (events first) = [getCommentBody None]
  /\ store (world first) = [kept]
  /\ settled second = Ok tt
  /\ created_bodies (events second) = []
  /\ updated_bodies (events second) = [(1%positive, updatedBody ctx getCommentBody kept)]
  /\ store (world second)
     = [CommentData.mk 1 (updatedBody ctx getCommentBody kept) (CommentData.mkUser "Bot")].
Proof.
  cbn zeta.
  set (ctx := createCommentContext action workflowInfo).
  set (created := CommentData.mk 1 (getCommentBody None) (CommentData.mkUser "Bot")).
  set (kept := CommentData.mk 1 (updatedBody ctx getCommentBody created)
                 (CommentData.mkUser "Bot")).
  (* the first run *)
  destruct (readComment_list_ok MemoryStore.github (mkWorld [] ctx) [] [] eq_refl eq_refl)
    as (Hr1 & Hw1 & Ha1).
  assert (Hwait : after_wait MemoryStore.github MemoryStore.elapse (mkWorld [] ctx)
                  = mkWorld [] ctx)
    by (unfold after_wait; rewrite Hw1; reflexivity).
  assert (Hr2 : settled (readComment MemoryStore.github
                           (after_wait MemoryStore.github MemoryStore.elapse
                              (mkWorld [] ctx))) = Ok None)
    by (rewrite Hwait; exact Hr1).
  destruct (initiateCommentLock_create MemoryStore.github MemoryStore.elapse getCommentBody
              (mkWorld [] ctx) Hr1 Hr2) as (Hla & Hlanswer).
  rewrite Hwait, Hw1 in Hlanswer.
  cbn [store context issues_createComment MemoryStore.github fst snd length
       Pos.of_succ_nat app] in Hlanswer.
  destruct Hlanswer as (Hls & Hlw).
  fold created in Hls, Hlw.
  destruct (postOrUpdateComment_update_accepted MemoryStore.github MemoryStore.elapse
              getCommentBody (mkWorld [] ctx) created [kept] Hls)
    as (Hfw & Hfa); [rewrite Hlw; reflexivity|].
  pose proof (postOrUpdateComment_settled MemoryStore.github MemoryStore.elapse
                getCommentBody (mkWorld [] ctx)) as Hfs.
  rewrite Hls in Hfs.
  split; [exact Hfs|].
  split.
  { rewrite <- created_bodies_actions, Hfa, Hla, Hwait, Ha1. reflexivity. }
  rewrite Hfw. cbn [store]. split; [reflexivity|].
  (* the second run *)
  destruct (readComment_list_ok MemoryStore.github (mkWorld [kept] ctx) [kept] [kept]
              eq_refl eq_refl) as (Hr3 & Hw3 & Ha3).
  assert (Hfound : settled (readComment MemoryStore.github (mkWorld [kept] ctx))
                   = Ok (Some kept)).
  { rewrite Hr3. unfold most_recent_match. cbn [rev app find context].
    unfold kept, ctx. now rewrite matches_updatedBody. }
  destruct (initiateCommentLock_first MemoryStore.github MemoryStore.elapse getCommentBody
              (mkWorld [kept] ctx) kept Hfound) as (Hs2 & Hlw2 & Hla2).
  rewrite Hw3 in Hlw2. cbn [store context] in Hlw2.
  destruct (postOrUpdateComment_update_accepted MemoryStore.github MemoryStore.elapse
              getCommentBody (mkWorld [kept] ctx) kept
              [CommentData.mk 1 (updatedBody ctx getCommentBody kept)
                 (CommentData.mkUser "Bot")] Hs2)
    as (Hsw & Hsa); [rewrite Hlw2; reflexivity|].
  pose proof (postOrUpdateComment_settled MemoryStore.github MemoryStore.elapse
                getCommentBody (mkWorld [kept] ctx)) as Hss.
  rewrite Hs2 in Hss.
  split; [exact Hss|].
  rewrite <- created_bodies_actions, <- updated_bodies_actions, Hsa, Hla2, Ha3, Hsw.
  repeat split.
Qed.

(* ================================================================== *)
(** ** Adopting the comment that is there *)

(** X19. When the listing a freshly built context reads holds a match,
    the orchestrator adopts the most recent one: a comment of that
    listing, written by a "Bot".  It arms no timer, reads once, and
    sends one update for that comment's id; it creates a comment only
    when the store rejects that update, and then with the body
    [getCommentBody(null)] followed by the footer. *)
Theorem postOrUpdateComment_adopts {S : Type} (github : GitHubActionClient S)
    (elapse : N -> S -> S) (action : GitHubActionContext) (workflowInfo : WorkflowRunInfo)
    (getCommentBody : option CommentData.t -> string) (s s' : S)
    (comments : list CommentData.t) (c : CommentData.t) :
  let ctx := createCommentContext action workflowInfo in
  let o := postOrUpdateComment github elapse getCommentBody (mkWorld s ctx) in
  issues_listComments github (context_repo_owner action) (context_repo_repo action)
    (context_issue_number action) s = (Ok comments, s') ->
  most_recent_match (CommentContext.matches ctx) comments = Some c ->
  In c comments
  /\ CommentData.type (CommentData.user c) = "Bot"
  /\ timeouts (events o) = []
  /\ locates (events o)
     = [Issues.listComments (context_repo_owner action) (context_repo_repo action)
          (context_issue_number action)]
  /\ updated_bodies (events o) = [(CommentData.id c, updatedBody ctx getCommentBody c)]
  /\ created_bodies (events o)
     = match fst (issues_updateComment github (context_repo_owner action)
                    (context_repo_repo action) (CommentData.id c)
                    (updatedBody ctx getCommentBody c) s') with
       | Ok _ => []
       | Throw _ => [getCommentBody None ++ CommentContext.footer ctx]
       end.
Proof.
  cbn zeta. set (ctx := createCommentContext action workflowInfo).
  intros Hlist Hmatch.
  destruct (readComment_list_ok github (mkWorld s ctx) comments s' eq_refl Hlist)
    as (Hr & Hw & Ha).
  cbn [context] in Hr, Hw, Ha. rewrite Hmatch in Hr.
  destruct (initiateCommentLock_first github elapse getCommentBody (mkWorld s ctx) c Hr)
    as (Hls & Hlw & Hla).
  rewrite Hw in Hlw. cbn [store context] in Hlw. rewrite Ha in Hla.
  destruct (postOrUpdateComment_lock_returns github elapse getCommentBody (mkWorld s ctx)
              c Hls) as (_ & _ & Hupdate).
  rewrite Hlw, Hla in Hupdate. cbn [store context] in Hupdate.
  unfold most_recent_match in Hmatch. apply find_some in Hmatch.
  destruct Hmatch as (Hin & Hbot).
  split; [now apply in_rev|].
  split.
  { unfold ctx in Hbot. cbn [createCommentContext CommentContext.matches] in Hbot.
    apply andb_true_iff in Hbot. now apply String.eqb_eq. }
  rewrite <- timeouts_actions, <- locates_actions, <- updated_bodies_actions,
    <- created_bodies_actions.
  change (CommentContext.owner ctx) with (context_repo_owner action) in Hupdate.
  change (CommentContext.repo ctx) with (context_repo_repo action) in Hupdate.
  change (CommentContext.issueNumber ctx) with (context_issue_number action) in Hupdate.
  destruct (fst (issues_updateComment _ _ _ _ _ _)) as [[]|e].
  - rewrite Hupdate. repeat split.
  - destruct Hupdate as (Hupdate & _). rewrite Hupdate. repeat split.
Qed.

Lemma postOrUpdateComment_adopts_witness :
  let o := postOrUpdateComment Script.github Script.elapse Scenario.report
             (Scenario.start [Script.listing Scenario.listing; Script.done] Scenario.ctx) in
  updated_bodies (events o)
  = [(8%positive, "report" ++ CommentContext.footer Scenario.ctx)]
  /\ created_bodies (events o) = [].
Proof.
  cbn zeta.
  destruct (postOrUpdateComment_adopts Script.github Script.elapse Scenario.actionContext
              Scenario.workflowInfo Scenario.report
              [Script.listing Scenario.listing; Script.done] [Script.done]
              Scenario.listing
              (Scenario.bot 8 ("second" ++ CommentContext.footer Scenario.ctx))
              eq_refl eq_refl)
    as (_ & _ & _ & _ & Hu & Hc).
  split; [exact Hu | exact Hc].
Defined.

(* ================================================================== *)
(** ** The wait of the lock, and the resolved id over later calls *)

(** A job with delay factor 0 still waits.  On an issue without
    comments its first read finds nothing; it then arms a timer, with
    the delay 0, and awaits it; a sibling creates the comment
    meanwhile, and the read after the wait finds and adopts it. *)
Lemma zero_delay_is_awaited :
  let w := mkWorld [] Race.ctx in
  let o := initiateCommentLock MemoryStore.github Race.elapse Scenario.report w in
  CommentContext.delayFactor Race.ctx = 0%N
  /\ settled (readComment MemoryStore.github w) = Ok None
  /\ timeouts (events o) = [0%N]
  /\ timeouts (events o) <> []
  /\ settled o = Ok Race.sibling
  /\ created_bodies (events o) = [].
Proof. vm_compute. repeat split. discriminate. Qed.

Lemma set_id_same (c : CommentContext.t) (id : positive) :
  CommentContext.id c = Some id -> CommentContext.set_id (Some id) c = c.
Proof. destruct c. cbn. now intros ->. Qed.

Lemma set_id_twice (c : CommentContext.t) (v v' : option positive) :
  CommentContext.set_id v (CommentContext.set_id v' c) = CommentContext.set_id v c.
Proof. reflexivity. Qed.

(** [postOrUpdateComment] leaves in [context.id] the id of the comment
    the lock returned, and leaves the context alone when the lock
    threw. *)
Lemma postOrUpdateComment_context {S : Type} (github : GitHubActionClient S)
    (elapse : N -> S -> S) (getCommentBody : option CommentData.t -> string)
    (w : World S) :
  context (world (postOrUpdateComment github elapse getCommentBody w))
  = match settled (initiateCommentLock github elapse getCommentBody w) with
    | Ok c => CommentContext.set_id (Some (CommentData.id c)) (context w)
    | Throw _ => context w
    end.
Proof.
  destruct (settled (initiateCommentLock github elapse getCommentBody w)) as [c|e] eqn:H.
  - now destruct (postOrUpdateComment_lock_returns github elapse getCommentBody w c H)
      as (_ & Hctx & _).
  - pose proof (initiateCommentLock_context github elapse getCommentBody w) as Hctx.
    rewrite H in Hctx.
    unfold postOrUpdateComment, acquireCommentLock. run_async.
    destruct (initiateCommentLock github elapse getCommentBody w) as [r w1 e1].
    cbn [settled world events] in *. subst r. exact Hctx.
Qed.

(** The reads of a lock run on a context whose id is set: one or two
    [getComment] requests for that id. *)
Lemma initiateCommentLock_reads_by_id {S : Type} (github : GitHubActionClient S)
    (elapse : N -> S -> S) (getInitialBody : option CommentData.t -> string)
    (w : World S) (id : positive) :
  CommentContext.id (context w) = Some id ->
  let by_id :=
    Issues.getComment (CommentContext.owner (context w)) (CommentContext.repo (context w))
      id in
  locates (events (initiateCommentLock github elapse getInitialBody w)) = [by_id]
  \/ locates (events (initiateCommentLock github elapse getInitialBody w)) = [by_id; by_id].
Proof.
  intros Hid. cbn zeta. rewrite <- locates_actions.
  pose proof (initiateCommentLock_actions github elapse getInitialBody w) as H.
  cbn zeta in H. unfold read_request in H. rewrite Hid in H.
  destruct H as [(H & _) | [(H & _) | H]]; rewrite H; [left | right | right]; reflexivity.
Qed.

(** One more call on a context whose id is set: it reads by that id,
    once or twice, never lists, and leaves an id in the context. *)
Lemma invoke_with_id {S : Type} (github : GitHubActionClient S) (elapse : N -> S -> S)
    (call : Invocation) (w : World S) (id : positive) :
  CommentContext.id (context w) = Some id ->
  let by_id :=
    Issues.getComment (CommentContext.owner (context w)) (CommentContext.repo (context w))
      id in
  (exists id', context (world (invoke github elapse call w))
               = CommentContext.set_id (Some id') (context w))
  /\ (locates (events (invoke github elapse call w)) = [by_id]
      \/ locates (events (invoke github elapse call w)) = [by_id; by_id]).
Proof.
  intros Hid. cbn zeta. destruct call as [g|g]; unfold invoke; run_async.
  - pose proof (initiateCommentLock_context github elapse g w) as Hctx.
    pose proof (initiateCommentLock_reads_by_id github elapse g w id Hid) as Hreads.
    cbn zeta in Hreads.
    destruct (initiateCommentLock github elapse g w) as [[c|e] w1 e1];
      cbn [settled world events] in *; rewrite ?app_nil_r; split; try exact Hreads.
    + now exists (CommentData.id c).
    + exists id. now rewrite set_id_same.
  - pose proof (postOrUpdateComment_context github elapse g w) as Hctx.
    pose proof (initiateCommentLock_reads_by_id github elapse g w id Hid) as Hreads.
    cbn zeta in Hreads.
    assert (Hsame : locates (events (postOrUpdateComment github elapse g w))
                    = locates (events (initiateCommentLock github elapse g w))).
    { rewrite <- locates_actions, <- (locates_actions (events (initiateCommentLock _ _ _ _))).
      pose proof (postOrUpdateComment_actions github elapse g w) as Ha. cbn zeta in Ha.
      destruct Ha as [Ha | (i & b & _ & [Ha | Ha])]; rewrite Ha; [reflexivity | |];
        rewrite locates_app; unfold locates at 2; cbn; apply app_nil_r. }
    rewrite <- Hsame in Hreads.
    destruct (settled (initiateCommentLock github elapse g w)) as [c|e].
    + destruct (postOrUpdateComment github elapse g w) as [[[]|e] w1 e1];
        cbn [settled world events] in *; rewrite ?app_nil_r; split; try exact Hreads;
        now exists (CommentData.id c).
    + destruct (postOrUpdateComment github elapse g w) as [[[]|e'] w1 e1];
        cbn [settled world events] in *; rewrite ?app_nil_r; split; try exact Hreads;
        exists id; now rewrite set_id_same.
Qed.

Lemma invoke_returns {S : Type} (github : GitHubActionClient S) (elapse : N -> S -> S)
    (call : Invocation) (w : World S) :
  settled (invoke github elapse call w) = Ok tt.
Proof.
  destruct call as [g|g]; unfold invoke; run_async.
  - now destruct (initiateCommentLock github elapse g w) as [[c|e] w1 e1].
  - now destruct (postOrUpdateComment github elapse g w) as [[[]|e] w1 e1].
Qed.

(** Any number of further calls on a context whose id is set: an id
    stays in the context, every read is a [getComment], and the first
    read is for the id the context held at the start. *)
Lemma invocations_with_id {S : Type} (github : GitHubActionClient S) (elapse : N -> S -> S)
    (calls : list Invocation) (w : World S) (id : positive) :
  CommentContext.id (context w) = Some id ->
  let o := invocations github elapse calls w in
  (exists id', context (world o) = CommentContext.set_id (Some id') (context w))
  /\ Forall (fun call => exists id',
               call = Issues.getComment (CommentContext.owner (context w))
                        (CommentContext.repo (context w)) id')
            (locates (events o))
  /\ match locates (events o) with
     | [] => True
     | first :: _ =>
         first = Issues.getComment (CommentContext.owner (context w))
                   (CommentContext.repo (context w)) id
     end.
Proof.
  revert w id. induction calls as [|call calls IH]; intros w id Hid; cbn zeta.
  - cbn. repeat split; [|constructor]. exists id. now rewrite set_id_same.
  - destruct (invoke_with_id github elapse call w id Hid) as ((id1 & Hctx1) & Hreads).
    cbn [invocations]. run_async.
    destruct (invoke github elapse call w) as [r w1 e1] eqn:Hinvoke.
    pose proof (invoke_returns github elapse call w) as Hr.
    rewrite Hinvoke in Hr. cbn [settled] in Hr. subst r. cbn [settled world events] in *.
    assert (Hid1 : CommentContext.id (context w1) = Some id1) by now rewrite Hctx1.
    specialize (IH w1 id1 Hid1). cbn zeta in IH.
    destruct (invocations github elapse calls w1) as [r w2 e2].
    cbn [settled world events] in *.
    destruct IH as ((id2 & Hctx2) & Hall & _).
    rewrite Hctx1 in Hctx2, Hall. cbn [CommentContext.set_id CommentContext.owner
      CommentContext.repo] in Hctx2, Hall.
    rewrite locates_app. repeat split.
    + exists id2. exact Hctx2.
    + apply Forall_app. split; [|exact Hall].
      destruct Hreads as [-> | ->]; repeat constructor; now exists id.
    + destruct Hreads as [-> | ->]; reflexivity.
Qed.

(** C8. When [initiateCommentLock] returns a comment, [context.id] holds
    that comment's id.  The next run of the lock on that context reads
    by that id, in one [getComment] request, or in two when the first
    finds nothing, and leaves in [context.id] the id of the comment it
    returns, which may be another one; when it throws the id is the
    same as before.  Over any number of further calls of
    [initiateCommentLock] and [postOrUpdateComment] on that context,
    the id is never unset, every read is a [getComment] request, none a
    listing, and the first of them is for the id of the comment the
    lock returned. *)
Theorem resolved_id_is_reused {S : Type} (github : GitHubActionClient S)
    (elapse : N -> S -> S) (getInitialBody getNextBody : option CommentData.t -> string)
    (w : World S) (c : CommentData.t) (calls : list Invocation) :
  settled (initiateCommentLock github elapse getInitialBody w) = Ok c ->
  let w' := world (initiateCommentLock github elapse getInitialBody w) in
  let next := initiateCommentLock github elapse getNextBody w' in
  let later := invocations github elapse calls w' in
  let by_id :=
    Issues.getComment (CommentContext.owner (context w)) (CommentContext.repo (context w)) in
  CommentContext.id (context w') = Some (CommentData.id c)
  /\ (locates (events next) = [by_id (CommentData.id c)]
      \/ locates (events next) = [by_id (CommentData.id c); by_id (CommentData.id c)])
  /\ CommentContext.id (context (world next))
     = Some (match settled next with
             | Ok c' => CommentData.id c'
             | Throw _ => CommentData.id c
             end)
  /\ (exists id, CommentContext.id (context (world later)) = Some id)
  /\ Forall (fun call => exists id, call = by_id id) (locates (events later))
  /\ match locates (events later) with
     | [] => True
     | first :: _ => first = by_id (CommentData.id c)
     end.
Proof.
  intros H. cbn zeta.
  pose proof (initiateCommentLock_context github elapse getInitialBody w) as Hctx.
  rewrite H in Hctx.
  assert (Hid : CommentContext.id
                  (context (world (initiateCommentLock github elapse getInitialBody w)))
                = Some (CommentData.id c)) by now rewrite Hctx.
  split; [exact Hid|].
  split.
  { pose proof (initiateCommentLock_reads_by_id github elapse getNextBody _ _ Hid) as Hreads.
    cbn zeta in Hreads. now rewrite Hctx in Hreads. }
  split.
  { rewrite (initiateCommentLock_context github elapse getNextBody).
    destruct (settled (initiateCommentLock github elapse getNextBody _)); [reflexivity|].
    exact Hid. }
  destruct (invocations_with_id github elapse calls _ _ Hid) as ((id & Hlater) & Hall & Hfirst).
  rewrite Hctx in Hall, Hfirst.
  split; [exists id; now rewrite Hlater|].
  split; [exact Hall | exact Hfirst].
Qed.

(** The id a context holds can be replaced.  The lock adopts comment 7;
    run again, with both reads by that id rejected, it creates comment
    9 and stores its id; the read of a third run is for 9, not for 7. *)
Lemma resolved_id_is_replaced :
  let found := Scenario.bot 7 ("old" ++ CommentContext.footer Scenario.ctx) in
  let made := Scenario.bot 9 "report" in
  let w := Scenario.start
             [Script.listing [found]; Script.fails Scenario.serverError;
              Script.fails Scenario.serverError; Script.comment made; Script.comment made]
             Scenario.ctx in
  let lock := initiateCommentLock Script.github Script.elapse Scenario.report in
  settled (lock w) = Ok found
  /\ CommentContext.id (context (world (lock w))) = Some 7%positive
  /\ locates (events (lock (world (lock w))))
     = [Issues.getComment "o" "r" 7; Issues.getComment "o" "r" 7]
  /\ CommentContext.id (context (world (lock (world (lock w))))) = Some 9%positive
  /\ locates (events (lock (world (lock (world (lock w))))))
     = [Issues.getComment "o" "r" 9].
Proof. vm_compute. repeat split. Qed.

Lemma resolved_id_is_reused_witness :
  let found := Scenario.bot 7 ("old" ++ CommentContext.footer Scenario.ctx) in
  let made := Scenario.bot 9 "report" in
  let w := Scenario.start
             [Script.listing [found]; Script.comment found;
              Script.fails Scenario.serverError; Script.fails Scenario.serverError;
              Script.comment made; Script.comment made; Script.done]
             Scenario.ctx in
  let w' := world (initiateCommentLock Script.github Script.elapse Scenario.report w) in
  let calls := [InitiateCommentLock Scenario.report; InitiateCommentLock Scenario.report;
                PostOrUpdateComment Scenario.report] in
  settled (initiateCommentLock Script.github Script.elapse Scenario.report w) = Ok found
  /\ CommentContext.id (context w') = Some 7%positive
  /\ locates (events (invocations Script.github Script.elapse calls w'))
     = [Issues.getComment "o" "r" 7; Issues.getComment "o" "r" 7;
        Issues.getComment "o" "r" 7; Issues.getComment "o" "r" 9]
  /\ exists id,
       CommentContext.id
         (context (world (invocations Script.github Script.elapse calls w'))) = Some id.
Proof.
  cbn zeta.
  assert (H : settled (initiateCommentLock Script.github Script.elapse Scenario.report
                         (Scenario.start
                            [Script.listing
                               [Scenario.bot 7 ("old" ++ CommentContext.footer Scenario.ctx)];
                             Script.comment
                               (Scenario.bot 7 ("old" ++ CommentContext.footer Scenario.ctx));
                             Script.fails Scenario.serverError;
                             Script.fails Scenario.serverError;
                             Script.comment (Scenario.bot 9 "report");
                             Script.comment (Scenario.bot 9 "report"); Script.done]
                            Scenario.ctx))
              = Ok (Scenario.bot 7 ("old" ++ CommentContext.footer Scenario.ctx)))
    by (vm_compute; reflexivity).
  split; [exact H|].
  destruct (resolved_id_is_reused Script.github Script.elapse Scenario.report
              Scenario.report _ _
              [InitiateCommentLock Scenario.report; InitiateCommentLock Scenario.report;
               PostOrUpdateComment Scenario.report] H)
    as (Hid & _ & _ & Hlater & _ & _).
  split; [exact Hid|]. split; [vm_compute; reflexivity | exact Hlater].
Defined.

(** [FirstAppearances] leaves no choice: an array has one list of
    first appearances. *)
Lemma FirstAppearances_functional (array names names' : list string) :
  FirstAppearances array names -> FirstAppearances array names' -> names = names'.
Proof.
  intros H. revert names'. induction H as [|x array names H IH]; intros names' H'.
  - now inversion H'.
  - inversion H' as [|x' array' names'' H'']. subst. f_equal. now apply IH.
Qed.

Lemma fresh_context_lists_witness :
  let o := postOrUpdateComment Script.github Script.elapse Scenario.report
             (mkWorld Scenario.create_accepted Scenario.ctx) in
  (jobIndex Scenario.workflowInfo * 100 <= TIMEOUT_MAX)%N
  /\ Forall (eq 300%N) (timeouts (events o))
  /\ timeouts (events o) = [300%N].
Proof.
  cbn zeta.
  assert (Hbound : (jobIndex Scenario.workflowInfo * 100 <= TIMEOUT_MAX)%N)
    by (vm_compute; discriminate).
  split; [exact Hbound|].
  destruct (fresh_context_lists Script.github Script.elapse Scenario.actionContext
              Scenario.workflowInfo Scenario.report Scenario.create_accepted)
    as (_ & Ht).
  split; [exact (Ht Hbound) | vm_compute; reflexivity].
Defined.
